(** * Connectivity API: probe execution and output parsing (src/utils.py)

    A shallow embedding of [utils.py]: the host validator, the ping and
    traceroute drivers and the four output parsers, together with the
    fragments of the Python runtime they rest on (str methods, [int] and
    [float] conversion, IEEE-754 doubles, the [re] module, [socket.inet_aton],
    [subprocess.run]).

    Conventions.
    - A Python [str] is a list of code points; the development covers the
      code points below 256, one [ascii] each.
    - A Python [float] is a binary64 value of [SpecFloat] (53 bits of
      precision, exponents below 1024); all operations round to nearest even.
    - A Python [int] is a [Z].
    - A computation that may raise is a value of [exc]; [try]/[except] is
      [catch].
    - Whatever the operating system decides (the platform name, what a child
      process does, which files exist, the wall clock) is a field of [World]. *)

From Stdlib Require Import ZArith NArith List Ascii String Bool Lia SpecFloat.
Import ListNotations.

Set Implicit Arguments.
Open Scope Z_scope.

(** ** Exceptions *)

Inductive exn : Type :=
| TimeoutExpired   (* subprocess.TimeoutExpired *)
| OSError          (* OSError and its subclasses; socket.error is OSError *)
| ValueError
| TypeError
| OverflowError
| IndexError.

Inductive exc (A : Type) : Type :=
| Ret (a : A)
| Raise (e : exn).
Arguments Ret {A} a.
Arguments Raise {A} e.

Definition bind {A B : Type} (m : exc A) (f : A -> exc B) : exc B :=
  match m with
  | Ret a => f a
  | Raise e => Raise e
  end.

Notation "x <- m ;; k" := (bind m (fun x => k))
  (at level 61, m at next level, right associativity).

(** [try: body except <classes>: handler]; [handles e] says whether the
    except clause covers the exception [e]. *)
Definition catch {A : Type} (body : exc A) (handles : exn -> bool)
    (handler : exc A) : exc A :=
  match body with
  | Ret a => Ret a
  | Raise e => if handles e then handler else Raise e
  end.

(** [except Exception] and a bare [except:] cover every class above. *)
Definition any_exception (e : exn) : bool := true.

Definition is_TimeoutExpired (e : exn) : bool :=
  match e with TimeoutExpired => true | _ => false end.

Definition is_OSError (e : exn) : bool :=
  match e with OSError => true | _ => false end.

Definition is_ValueError_or_IndexError (e : exn) : bool :=
  match e with ValueError | IndexError => true | _ => false end.

(** ** Strings *)

Definition str : Type := list ascii.

Definition py (s : string) : str := list_ascii_of_string s.

(** The line feed, for the literals that span lines. *)
Definition LF : string := String (ascii_of_nat 10) EmptyString.

Definition code (a : ascii) : N := N_of_ascii a.

Definition str_eqb (a b : str) : bool :=
  if list_eq_dec ascii_dec a b then true else false.

Definition between (lo hi : N) (a : ascii) : bool :=
  ((lo <=? code a) && (code a <=? hi))%N.

(** [str.isdigit] restricted to the decimal digits, the only characters of
    category Nd below code point 256. *)
Definition isdigit (a : ascii) : bool := between 48 57 a.

Definition isalpha_ascii (a : ascii) : bool :=
  between 65 90 a || between 97 122 a.

(** [str.isspace] below code point 256: TAB LF VT FF CR, FS GS RS US, SPACE,
    NEL and NBSP. *)
Definition isspace (a : ascii) : bool :=
  between 9 13 a || between 28 32 a || (code a =? 133)%N || (code a =? 160)%N.

(** Line boundaries of [str.splitlines] below code point 256. *)
Definition is_linebreak (a : ascii) : bool :=
  between 10 13 a || between 28 30 a || (code a =? 133)%N.

Definition digit_val (a : ascii) : Z := Z.of_N (code a) - 48.

(** [str.splitlines()]: [cur] is the current line, reversed.  CR LF counts as
    one boundary and no empty line follows a final boundary. *)
Fixpoint splitlines_aux (s : str) (cur : str) : list str :=
  match s with
  | [] => match cur with [] => [] | _ => [rev cur] end
  | c :: s' =>
      if is_linebreak c then
        rev cur ::
          (if (code c =? 13)%N then
             match s' with
             | d :: s'' =>
                 if (code d =? 10)%N then splitlines_aux s'' []
                 else splitlines_aux s' []
             | [] => splitlines_aux s' []
             end
           else splitlines_aux s' [])
      else splitlines_aux s' (c :: cur)
  end.

Definition splitlines (s : str) : list str := splitlines_aux s [].

(** [str.split()] with no separator: maximal runs of non-blank characters.
    [tok] is the current token, reversed. *)
Fixpoint split_aux (s : str) (tok : str) : list str :=
  match s with
  | [] => match tok with [] => [] | _ => [rev tok] end
  | c :: s' =>
      if isspace c then
        match tok with
        | [] => split_aux s' []
        | _ => rev tok :: split_aux s' []
        end
      else split_aux s' (c :: tok)
  end.

Definition split (s : str) : list str := split_aux s [].

Fixpoint lstrip (s : str) : str :=
  match s with
  | c :: s' => if isspace c then lstrip s' else s
  | [] => []
  end.

Definition rstrip (s : str) : str := rev (lstrip (rev s)).

(** [str.strip()] *)
Definition strip (s : str) : str := rstrip (lstrip s).

(** [s.startswith(p)] *)
Fixpoint startswith (s p : str) : bool :=
  match p, s with
  | [], _ => true
  | a :: p', b :: s' => if ascii_dec a b then startswith s' p' else false
  | _ :: _, [] => false
  end.

Definition digit_char (d : N) : ascii := ascii_of_N (48 + d).

(** Decimal digits of a natural number, most significant first. *)
Fixpoint digits_of (fuel : nat) (n : N) (acc : str) : str :=
  match fuel with
  | O => acc
  | S f =>
      let acc' := digit_char (n mod 10) :: acc in
      if (n / 10 =? 0)%N then acc' else digits_of f (n / 10)%N acc'
  end.

Definition str_of_N (n : N) : str := digits_of (S (N.to_nat (N.log2 n))) n [].

(** [str(i)] for an [int]. *)
Definition str_of_Z (z : Z) : str :=
  match z with
  | Zneg p => "-"%char :: str_of_N (Npos p)
  | _ => str_of_N (Z.to_N z)
  end.

(** ** Integers from text: [int(s)] *)

(** The rest of a [digitpart]: digits, each optionally preceded by one
    underscore.  Returns the digits read and what follows them. *)
Fixpoint scan_digits (s : str) : str * str :=
  match s with
  | c :: r =>
      if isdigit c then
        let (ds, rest) := scan_digits r in (c :: ds, rest)
      else if (code c =? 95)%N then
        match r with
        | d :: r' =>
            if isdigit d then
              let (ds, rest) := scan_digits r' in (d :: ds, rest)
            else ([], s)
        | [] => ([], s)
        end
      else ([], s)
  | [] => ([], [])
  end.

(** [digitpart ::= digit (["_"] digit)*] *)
Definition digitpart (s : str) : option (str * str) :=
  match s with
  | c :: r =>
      if isdigit c then
        let (ds, rest) := scan_digits r in Some (c :: ds, rest)
      else None
  | [] => None
  end.

Definition digits_value (ds : str) : Z :=
  fold_left (fun acc d => 10 * acc + digit_val d) ds 0.

Definition read_sign (s : str) : bool * str :=
  match s with
  | c :: r =>
      if (code c =? 45)%N then (true, r)
      else if (code c =? 43)%N then (false, r)
      else (false, s)
  | [] => (false, [])
  end.

(** [int(s)] for a [str] in base 10. *)
Definition int_of_str (s : str) : exc Z :=
  let (neg, body) := read_sign (strip s) in
  match digitpart body with
  | Some (ds, []) => Ret (if neg then - digits_value ds else digits_value ds)
  | _ => Raise ValueError
  end.

(** ** Floats *)

Definition float : Type := spec_float.

Definition prec : Z := 53.
Definition emax : Z := 1024.

Definition fmul : float -> float -> float := SFmul prec emax.
Definition fdiv : float -> float -> float := SFdiv prec emax.

(** The double nearest to the integer [z] (ties to even); infinite when [z]
    is beyond the range of doubles. *)
Definition round_Z (z : Z) : float := binary_normalize prec emax z 0 false.

Definition is_finite (x : float) : bool :=
  match x with
  | S754_zero _ | S754_finite _ _ _ => true
  | _ => false
  end.

(** Conversion of an [int] operand in mixed arithmetic ([count * loss]):
    "OverflowError: int too large to convert to float". *)
Definition float_of_int (z : Z) : exc float :=
  let x := round_Z z in
  if is_finite x then Ret x else Raise OverflowError.

(** [int(x)] for a float: truncation toward zero; NaN and the infinities
    raise. *)
Definition int_of_float (x : float) : exc Z :=
  match x with
  | S754_zero _ => Ret 0
  | S754_finite s m e =>
      Ret (if 0 <=? e then cond_Zopp s (Zpos m) * 2 ^ e
           else Z.quot (cond_Zopp s (Zpos m)) (2 ^ (- e)))
  | S754_infinity _ => Raise OverflowError
  | S754_nan => Raise ValueError
  end.

(** [math.floor] of a finite float, for comparison with [int_of_float]. *)
Definition floor_of_float (x : float) : option Z :=
  match x with
  | S754_zero _ => Some 0
  | S754_finite s m e =>
      Some (if 0 <=? e then cond_Zopp s (Zpos m) * 2 ^ e
            else cond_Zopp s (Zpos m) / 2 ^ (- e))
  | _ => None
  end.

(** The double nearest to [(-1)^neg * n * 10^e10], for [n >= 0]. *)
Definition float_of_decimal (neg : bool) (n : Z) (e10 : Z) : float :=
  match n with
  | Zpos _ =>
      if 0 <=? e10 then
        binary_normalize prec emax (cond_Zopp neg (n * 10 ^ e10)) 0 neg
      else
        let '(q, e, l) := SFdiv_core_binary prec emax n 0 (10 ^ (- e10)) 0 in
        binary_round_aux prec emax neg q e l
  | _ => S754_zero neg
  end.

(** Lower case of the ASCII letters, as the C library compares keywords.
    [str.lower] also moves the accented capitals above code point 191, which
    no comparison below can tell apart. *)
Definition lower (a : ascii) : ascii :=
  if between 65 90 a then ascii_of_N (code a + 32) else a.

(** [exponent ::= ("e" | "E") [sign] digitpart]; yields the exponent and the
    text after it, or nothing when no exponent starts here. *)
Definition read_exponent (s : str) : option (Z * str) :=
  match s with
  | c :: r =>
      if (code (lower c) =? 101)%N then
        let (neg, body) := read_sign r in
        match digitpart body with
        | Some (ds, rest) =>
            Some (if neg then - digits_value ds else digits_value ds, rest)
        | None => None
        end
      else None
  | [] => None
  end.

(** [number ::= [digitpart] "." digitpart | digitpart ["."]]; yields the
    integer digits, the fraction digits and the text after the number. *)
Definition read_number (s : str) : option (str * str * str) :=
  match digitpart s with
  | Some (ip, rest) =>
      match rest with
      | c :: r =>
          if (code c =? 46)%N then
            match digitpart r with
            | Some (fp, rest') => Some (ip, fp, rest')
            | None => Some (ip, [], r)
            end
          else Some (ip, [], rest)
      | [] => Some (ip, [], [])
      end
  | None =>
      match s with
      | c :: r =>
          if (code c =? 46)%N then
            match digitpart r with
            | Some (fp, rest') => Some ([], fp, rest')
            | None => None
            end
          else None
      | [] => None
      end
  end.

(** [float(s)] for a [str]. *)
Definition float_of_str (s : str) : exc float :=
  let (neg, body) := read_sign (strip s) in
  let word := map lower body in
  if str_eqb word (py "inf") || str_eqb word (py "infinity") then
    Ret (S754_infinity neg)
  else if str_eqb word (py "nan") then Ret S754_nan
  else
    match read_number body with
    | Some (ip, fp, rest) =>
        let n := digits_value (ip ++ fp) in
        let frac := Z.of_nat (List.length fp) in
        match rest with
        | [] => Ret (float_of_decimal neg n (- frac))
        | _ =>
            match read_exponent rest with
            | Some (e, []) => Ret (float_of_decimal neg n (e - frac))
            | _ => Raise ValueError
            end
        end
    | None => Raise ValueError
    end.

(** [float(x)] where [x] is a match group: a group that took no part in the
    match is [None], and [float(None)] is a TypeError. *)
Definition float_of_group (g : option str) : exc float :=
  match g with
  | Some s => float_of_str s
  | None => Raise TypeError
  end.

(** [a or b] on match groups: [a] unless it is [None] or empty. *)
Definition py_or (a b : option str) : option str :=
  match a with
  | Some (_ :: _) => a
  | _ => b
  end.

Definition f0 : float := S754_zero false.
Definition f100 : float := Eval vm_compute in round_Z 100.

(** ** Regular expressions: the fragment of [re] that utils.py uses

    Literal text, character classes, greedy repetition of a character class,
    concatenation, alternation, capturing groups and the two anchors.  The
    matcher backtracks the way [re] does: alternatives left to right,
    repetitions longest first, the first success wins. *)

Inductive re : Type :=
| Lit (l : str)                 (* literal text *)
| Cls (p : ascii -> bool)       (* one character of a class *)
| Many (p : ascii -> bool)      (* [p*], greedy *)
| Cat (r1 r2 : re)
| Alt (r1 r2 : re)
| Grp (i : nat) (r : re)        (* capturing group number [i] *)
| Bos                           (* [^] *)
| Eos.                          (* [$]: at the end, or before a final LF *)

(** [p+] and [p{n,}] *)
Definition Many1 (p : ascii -> bool) : re := Cat (Cls p) (Many p).

Fixpoint AtLeast (n : nat) (p : ascii -> bool) : re :=
  match n with
  | O => Many p
  | S n' => Cat (Cls p) (AtLeast n' p)
  end.

Fixpoint Seq (rs : list re) : re :=
  match rs with
  | [] => Lit []
  | [r] => r
  | r :: rs' => Cat r (Seq rs')
  end.

(** Captured groups: [None] for a group that took no part in the match. *)
Definition caps : Type := nat -> option str.

Definition no_caps : caps := fun _ => None.

Definition set_cap (i : nat) (v : str) (c : caps) : caps :=
  fun j => if Nat.eqb j i then Some v else c j.

Fixpoint strip_prefix (l s : str) : option str :=
  match l, s with
  | [], _ => Some s
  | a :: l', b :: s' => if ascii_dec a b then strip_prefix l' s' else None
  | _ :: _, [] => None
  end.

(** The text consumed between the suffix [s] and its suffix [s']. *)
Definition consumed (s s' : str) : str :=
  firstn (List.length s - List.length s') s.

Section Matcher.
Variable R : Type.
(** Length of the whole subject, to recognise its beginning. *)
Variable n0 : nat.

(** Longest-first repetition of a class, then the continuation. *)
Fixpoint many (p : ascii -> bool) (s : str) (k : str -> option R)
    : option R :=
  match s with
  | a :: s' =>
      if p a then
        match many p s' k with
        | Some x => Some x
        | None => k s
        end
      else k s
  | [] => k s
  end.

Fixpoint rmatch (r : re) (s : str) (c : caps)
    (k : str -> caps -> option R) : option R :=
  match r with
  | Lit l =>
      match strip_prefix l s with
      | Some s' => k s' c
      | None => None
      end
  | Cls p =>
      match s with
      | a :: s' => if p a then k s' c else None
      | [] => None
      end
  | Many p => many p s (fun s' => k s' c)
  | Cat r1 r2 => rmatch r1 s c (fun s' c' => rmatch r2 s' c' k)
  | Alt r1 r2 =>
      match rmatch r1 s c k with
      | Some x => Some x
      | None => rmatch r2 s c k
      end
  | Grp i r1 =>
      rmatch r1 s c (fun s' c' => k s' (set_cap i (consumed s s') c'))
  | Bos => if Nat.eqb (List.length s) n0 then k s c else None
  | Eos =>
      match s with
      | [] => k s c
      | [a] => if (code a =? 10)%N then k s c else None
      | _ => None
      end
  end.
End Matcher.

(** A match object: where the match starts, its whole text ([group()]), its
    groups ([group(i)]) and the text after it. *)
Record Match : Type := {
  m_start : nat;
  m_text : str;
  m_groups : caps;
  m_rest : str
}.

Definition group (m : Match) (i : nat) : option str := m_groups m i.

(** A match starting exactly at the suffix [s] of a subject of length [n0]. *)
Definition match_here (r : re) (n0 : nat) (s : str) : option Match :=
  rmatch n0 r s no_caps
    (fun s' c' =>
       Some {| m_start := n0 - List.length s;
               m_text := consumed s s';
               m_groups := c';
               m_rest := s' |}).

(** Leftmost match at or after the suffix [s]. *)
Fixpoint search_from (r : re) (n0 : nat) (s : str) : option Match :=
  match match_here r n0 s with
  | Some m => Some m
  | None =>
      match s with
      | [] => None
      | _ :: s' => search_from r n0 s'
      end
  end.

(** [pattern.search(s)] *)
Definition re_search (r : re) (s : str) : option Match :=
  search_from r (List.length s) s.

(** [re.match(pattern, s)] *)
Definition re_match (r : re) (s : str) : option Match :=
  match_here r (List.length s) s.

(** What [findall] reports for group 1: the empty string when the group took
    no part in the match. *)
Definition group_text (m : Match) : str :=
  match group m 1 with
  | Some g => g
  | None => []
  end.

(** [re.findall(pattern, s)] for a pattern with one group: the group of each
    successive match, scanning on from the end of the previous one (one
    character further after an empty match). *)
Fixpoint findall_from (fuel : nat) (r : re) (n0 : nat) (s : str)
    : list str :=
  match fuel with
  | O => []
  | S fuel' =>
      match search_from r n0 s with
      | None => []
      | Some m =>
          group_text m ::
            match m_text m, m_rest m with
            | [], [] => []
            | [], _ :: rest' => findall_from fuel' r n0 rest'
            | _, rest => findall_from fuel' r n0 rest
            end
      end
  end.

Definition re_findall (r : re) (s : str) : list str :=
  findall_from (S (List.length s)) r (List.length s) s.

(** Character classes of the patterns. *)
Definition is_char (ch : string) (a : ascii) : bool :=
  match ch with
  | String b EmptyString => if ascii_dec a b then true else false
  | _ => false
  end.

Definition any_but_newline (a : ascii) : bool := negb (code a =? 10)%N.
Definition digit_or_dot (a : ascii) : bool := isdigit a || is_char "." a.
Definition host_char (a : ascii) : bool :=
  isalpha_ascii a || isdigit a || is_char "." a || is_char "-" a.

(** ** The module-level patterns of utils.py *)

(** [r"min/avg/max.*= ([\d.]+)/([\d.]+)/([\d.]+)"] *)
Definition PING_RE_LINUX : re :=
  Seq [Lit (py "min/avg/max"); Many any_but_newline; Lit (py "= ");
       Grp 1 (Many1 digit_or_dot); Lit (py "/");
       Grp 2 (Many1 digit_or_dot); Lit (py "/");
       Grp 3 (Many1 digit_or_dot)].

(** [r"Minimum = (\d+)ms, Maximum = (\d+)ms, Average = (\d+)ms"] *)
Definition PING_RE_WINDOWS : re :=
  Seq [Lit (py "Minimum = "); Grp 1 (Many1 isdigit);
       Lit (py "ms, Maximum = "); Grp 2 (Many1 isdigit);
       Lit (py "ms, Average = "); Grp 3 (Many1 isdigit); Lit (py "ms")].

(** [r"(\d+)% packet loss|(\d+)% perdidos"] *)
Definition LOSS_RE : re :=
  Alt (Cat (Grp 1 (Many1 isdigit)) (Lit (py "% packet loss")))
      (Cat (Grp 2 (Many1 isdigit)) (Lit (py "% perdidos"))).

(** ** [socket.inet_aton]

    CPython hands the string to the C library's [inet_aton] and turns a zero
    return into [OSError]; a string with an embedded NUL never reaches it
    (ValueError).  The C routine accepts one to four numbers separated by
    dots, each decimal, octal (leading 0) or hexadecimal (leading 0x); all but
    the last number are single bytes and the last one fills the remaining
    bytes; whatever follows a blank after the address is ignored. *)

Fixpoint span (p : ascii -> bool) (s : str) : str * str :=
  match s with
  | a :: s' =>
      if p a then let (l, r) := span p s' in (a :: l, r) else ([], s)
  | [] => ([], [])
  end.

Definition isoctal (a : ascii) : bool := between 48 55 a.
Definition ishex (a : ascii) : bool :=
  isdigit a || between 65 70 a || between 97 102 a.

Definition hex_val (a : ascii) : Z :=
  if isdigit a then digit_val a
  else if between 65 70 a then Z.of_N (code a) - 55
  else Z.of_N (code a) - 87.

Definition base_value (base : Z) (ds : str) : Z :=
  fold_left (fun acc d => base * acc + hex_val d) ds 0.

(** [strtoul(s, &end, 0)] on a string that starts with a digit. *)
Definition strtoul0 (s : str) : Z * str :=
  match s with
  | z :: r =>
      if is_char "0" z then
        match r with
        | x :: h :: _ =>
            if is_char "x" (lower x) && ishex h then
              let (ds, rest) := span ishex (tl r) in (base_value 16 ds, rest)
            else let (ds, rest) := span isoctal s in (base_value 8 ds, rest)
        | _ => let (ds, rest) := span isoctal s in (base_value 8 ds, rest)
        end
      else let (ds, rest) := span isdigit s in (base_value 10 ds, rest)
  | [] => (0, [])
  end.

(** The C library's [isascii(c) && isspace(c)]. *)
Definition c_isspace (a : ascii) : bool :=
  between 9 13 a || (code a =? 32)%N.

(** Upper bound of the last number when [n] single bytes precede it. *)
Definition last_part_max (n : nat) : Z :=
  match n with
  | 0%nat => 4294967295
  | 1%nat => 16777215
  | 2%nat => 65535
  | _ => 255
  end.

Definition pack (bytes : list Z) (val : Z) : Z :=
  fst (fold_left (fun '(acc, sh) b => (acc + Z.shiftl b sh, sh - 8))
         bytes (val, 24)).

(** The loop of the C routine; [bytes] are the single-byte parts stored so
    far and [fuel] bounds the number of parts still to read. *)
Fixpoint aton_parts (fuel : nat) (bytes : list Z) (s : str) : option Z :=
  match fuel with
  | O => None
  | S fuel' =>
      match s with
      | c :: _ =>
          if isdigit c then
            let (val, rest) := strtoul0 s in
            if 4294967295 <? val then None
            else
              match rest with
              | d :: rest' =>
                  if is_char "." d then
                    if (2 <? List.length bytes)%nat || (255 <? val) then None
                    else aton_parts fuel' (bytes ++ [val]) rest'
                  else if c_isspace d then
                    if last_part_max (List.length bytes) <? val then None
                    else Some (pack bytes val)
                  else None
              | [] =>
                  if last_part_max (List.length bytes) <? val then None
                  else Some (pack bytes val)
              end
          else None
      | [] => None
      end
  end.

Definition c_inet_aton (s : str) : option Z := aton_parts 4 [] s.

Definition has_nul (s : str) : bool := existsb (fun a => (code a =? 0)%N) s.

Definition inet_aton (ip_string : str) : exc Z :=
  if has_nul ip_string then Raise ValueError
  else
    match c_inet_aton ip_string with
    | Some addr => Ret addr
    | None => Raise OSError
    end.

(** ** The operating system *)

(** What a finished child process leaves behind. *)
Record CompletedProcess : Type := {
  returncode : Z;
  stdout : str
}.

Record World : Type := {
  (** [platform.system()] *)
  platform_system : str;
  (** [subprocess.run(cmd, text=True, capture_output=True, timeout=t)]:
      the finished process, [TimeoutExpired] past the ceiling, [OSError]
      when the command cannot be started. *)
  subprocess_run : list str -> option Z -> exc CompletedProcess;
  (** [os.path.isfile] and [os.access(path, os.X_OK)] *)
  os_path_isfile : str -> bool;
  os_access_X_OK : str -> bool;
  (** [datetime.now().isoformat()] *)
  now_isoformat : str
}.

Definition system_is_windows (w : World) : bool :=
  str_eqb (map lower (platform_system w)) (py "windows").

(** ** Results (the dictionaries of utils.py, the classes of models.py) *)

Module PingResult.
Record t : Type := {
  host : str;
  packets_transmitted : Z;
  packets_received : Z;
  packet_loss : float;
  min_ms : float;
  avg_ms : float;
  max_ms : float;
  timestamp : str
}.
End PingResult.

Module TraceHop.
Record t : Type := {
  hop : Z;
  host : str;
  rtt_ms : option float
}.
End TraceHop.

(** ** utils.py *)

(** [r'^[a-zA-Z0-9.-]+\.[a-zA-Z]{2,}$'] *)
Definition HOST_RE : re :=
  Seq [Bos; Many1 host_char; Lit (py "."); AtLeast 2 isalpha_ascii; Eos].

Definition is_valid_host (host : str) : exc bool :=
  catch (_ <- inet_aton host ;; Ret true)
    is_OSError
    (match re_match HOST_RE host with
     | Some _ => Ret true
     | None => Ret false
     end).

(** The dictionary returned on every failure path of the ping code. *)
Definition full_loss (w : World) (host : str) (count : Z) : PingResult.t :=
  {| PingResult.host := host;
     PingResult.packets_transmitted := count;
     PingResult.packets_received := 0;
     PingResult.packet_loss := f100;
     PingResult.min_ms := f0;
     PingResult.avg_ms := f0;
     PingResult.max_ms := f0;
     PingResult.timestamp := now_isoformat w |}.

(** [map(float, m.groups())] unpacked into three names. *)
Definition float_groups (m : Match) : exc (float * float * float) :=
  a <- float_of_group (group m 1) ;;
  b <- float_of_group (group m 2) ;;
  c <- float_of_group (group m 3) ;;
  Ret (a, b, c).

(** [count - int(count * loss / 100)] *)
Definition received_of (count : Z) (loss : float) : exc Z :=
  c <- float_of_int count ;;
  n <- int_of_float (fdiv (fmul c loss) f100) ;;
  Ret (count - n).

(** The [try] block of [_parse_ping_linux]; [vars] holds the local names
    [min_ms], [avg_ms], [max_ms] in this order. *)
Definition _parse_ping_linux_try (w : World) (output host : str) (count : Z)
    : exc PingResult.t :=
  let time_match := re_search PING_RE_LINUX output in
  vars <- match time_match with
          | Some m =>
              g <- float_groups m ;;
              let '(min_ms, avg_ms, max_ms) := g in
              Ret (min_ms, avg_ms, max_ms)
          | None => Ret (f0, f0, f0)
          end ;;
  let '(min_ms, avg_ms, max_ms) := vars in
  let loss_match := re_search LOSS_RE output in
  loss <- match loss_match with
          | Some m => float_of_group (group m 1)
          | None => Ret f0
          end ;;
  packets_received <- received_of count loss ;;
  Ret {| PingResult.host := host;
         PingResult.packets_transmitted := count;
         PingResult.packets_received := packets_received;
         PingResult.packet_loss := loss;
         PingResult.min_ms := min_ms;
         PingResult.avg_ms := avg_ms;
         PingResult.max_ms := max_ms;
         PingResult.timestamp := now_isoformat w |}.

Definition _parse_ping_linux (w : World) (output host : str) (count : Z)
    : exc PingResult.t :=
  catch (_parse_ping_linux_try w output host count)
    any_exception
    (Ret (full_loss w host count)).

(** The [try] block of [_parse_ping_windows]: the groups come as minimum,
    maximum, average. *)
Definition _parse_ping_windows_try (w : World) (output host : str) (count : Z)
    : exc PingResult.t :=
  let time_match := re_search PING_RE_WINDOWS output in
  vars <- match time_match with
          | Some m =>
              g <- float_groups m ;;
              let '(min_ms, max_ms, avg_ms) := g in
              Ret (min_ms, avg_ms, max_ms)
          | None => Ret (f0, f0, f0)
          end ;;
  let '(min_ms, avg_ms, max_ms) := vars in
  let loss_match := re_search LOSS_RE output in
  loss <- match loss_match with
          | Some m => float_of_group (py_or (group m 1) (group m 2))
          | None => Ret f0
          end ;;
  packets_received <- received_of count loss ;;
  Ret {| PingResult.host := host;
         PingResult.packets_transmitted := count;
         PingResult.packets_received := packets_received;
         PingResult.packet_loss := loss;
         PingResult.min_ms := min_ms;
         PingResult.avg_ms := avg_ms;
         PingResult.max_ms := max_ms;
         PingResult.timestamp := now_isoformat w |}.

Definition _parse_ping_windows (w : World) (output host : str) (count : Z)
    : exc PingResult.t :=
  catch (_parse_ping_windows_try w output host count)
    any_exception
    (Ret (full_loss w host count)).

Definition ping_cmd (w : World) (host : str) (count timeout : Z) : list str :=
  if system_is_windows w then
    [py "ping"; py "-n"; str_of_Z count; py "-w"; str_of_Z (timeout * 1000);
     host]
  else
    [py "ping"; py "-c"; str_of_Z count; py "-W"; str_of_Z timeout; host].

Definition ping (w : World) (host : str) (count timeout : Z)
    : exc PingResult.t :=
  let cmd := ping_cmd w host count timeout in
  catch
    (proc <- subprocess_run w cmd (Some 30) ;;
     let output := stdout proc in
     if negb (returncode proc =? 0) then Ret (full_loss w host count)
     else if system_is_windows w then _parse_ping_windows w output host count
     else _parse_ping_linux w output host count)
    is_TimeoutExpired
    (Ret (full_loss w host count)).

Definition traceroute_paths : list str :=
  [py "traceroute"; py "/usr/bin/traceroute"; py "/usr/sbin/traceroute";
   py "/bin/traceroute"].

(** The [for path in traceroute_paths] loop: the first path that passes its
    test; a test that raises moves on to the next path. *)
Fixpoint find_traceroute (w : World) (paths : list str) : option str :=
  match paths with
  | [] => None
  | path :: rest =>
      let test :=
        catch
          (if str_eqb path (py "traceroute") then
             result <- subprocess_run w [py "which"; py "traceroute"] None ;;
             Ret (returncode result =? 0)
           else Ret (os_path_isfile w path && os_access_X_OK w path))
          any_exception
          (Ret false) in
      match test with
      | Ret true => Some path
      | _ => find_traceroute w rest
      end
  end.

Definition traceroute_cmd (w : World) (host : str) (max_hops : Z) : list str :=
  if system_is_windows w then
    [py "tracert"; py "-h"; str_of_Z max_hops; host]
  else
    let traceroute_path :=
      match find_traceroute w traceroute_paths with
      | Some (c :: p) => c :: p
      | _ => py "traceroute"
      end in
    [traceroute_path; py "-n"; py "-m"; str_of_Z max_hops; host].

(** [parts[i]] *)
Definition index (parts : list str) (i : nat) : exc str :=
  match nth_error parts i with
  | Some x => Ret x
  | None => Raise IndexError
  end.

Definition timeout_hop (hop_no : Z) : TraceHop.t :=
  {| TraceHop.hop := hop_no;
     TraceHop.host := py "timeout";
     TraceHop.rtt_ms := None |}.

(** One turn of the loop of [_parse_traceroute_linux]: the list [hops] after
    the line has been looked at. *)
Definition linux_line (hops : list TraceHop.t) (line : str)
    : list TraceHop.t :=
  match strip line with
  | [] => hops                                        (* continue *)
  | _ =>
      let parts := split line in
      if (List.length parts <? 2)%nat then hops       (* continue *)
      else
        let body :=
          hop_no <- (p0 <- index parts 0 ;; int_of_str p0) ;;
          p1 <- index parts 1 ;;
          if str_eqb p1 (py "*") then Ret (hops ++ [timeout_hop hop_no])
          else
            let host_ip := p1 in
            rtt_ms <- (if (2 <? List.length parts)%nat then
                         p2 <- index parts 2 ;;
                         x <- float_of_str p2 ;;
                         Ret (Some x)
                       else Ret None) ;;
            Ret (hops ++ [{| TraceHop.hop := hop_no;
                             TraceHop.host := host_ip;
                             TraceHop.rtt_ms := rtt_ms |}]) in
        match catch body is_ValueError_or_IndexError (Ret hops) with
        | Ret hops' => hops'
        | Raise _ => hops
        end
  end.

Definition _parse_traceroute_linux (output : str) : list TraceHop.t :=
  let lines := splitlines output in
  fold_left linux_line (tl lines) [].

(** [r'\d+\.\d+\.\d+\.\d+'] *)
Definition ip_pattern : re :=
  Seq [Many1 isdigit; Lit (py "."); Many1 isdigit; Lit (py ".");
       Many1 isdigit; Lit (py "."); Many1 isdigit].

(** [r'(\d+)\s*ms'] *)
Definition time_pattern : re :=
  Seq [Grp 1 (Many1 isdigit); Many isspace; Lit (py "ms")].

(** One turn of the loop of [_parse_traceroute_windows] at index [i]. *)
Definition windows_line (hops : list TraceHop.t) (i : nat) (line : str)
    : list TraceHop.t :=
  if startswith (strip line) (str_of_N (N.of_nat i + 1)) then
    let body :=
      let parts := split line in
      hop_no <- (p0 <- index parts 0 ;; int_of_str p0) ;;
      let ip_match := re_search ip_pattern line in
      match ip_match with
      | Some m =>
          let host_ip := m_text m in
          let time_matches := re_findall time_pattern line in
          rtt_ms <- match time_matches with
                    | t0 :: _ => x <- float_of_str t0 ;; Ret (Some x)
                    | [] => Ret None
                    end ;;
          Ret (hops ++ [{| TraceHop.hop := hop_no;
                           TraceHop.host := host_ip;
                           TraceHop.rtt_ms := rtt_ms |}])
      | None => Ret (hops ++ [timeout_hop hop_no])
      end in
    match catch body is_ValueError_or_IndexError (Ret hops) with
    | Ret hops' => hops'
    | Raise _ => hops
    end
  else hops.

(** [for i, line in enumerate(lines)] from index [i] on. *)
Fixpoint windows_loop (hops : list TraceHop.t) (i : nat) (lines : list str)
    : list TraceHop.t :=
  match lines with
  | [] => hops
  | line :: rest => windows_loop (windows_line hops i line) (S i) rest
  end.

Definition _parse_traceroute_windows (output : str) : list TraceHop.t :=
  let lines := splitlines output in
  windows_loop [] 0 lines.

Definition traceroute (w : World) (host : str) (max_hops : Z)
    : exc (list TraceHop.t) :=
  let cmd := traceroute_cmd w host max_hops in
  catch
    (proc <- subprocess_run w cmd (Some 60) ;;
     let output := stdout proc in
     if system_is_windows w then Ret (_parse_traceroute_windows output)
     else Ret (_parse_traceroute_linux output))
    is_TimeoutExpired
    (Ret []).

(** ** main.py

    The handlers of the HTTP layer, as functions from their parameters to
    what they hand back to the framework.  [await loop.run_in_executor(None,
    f, x)] is the value (or the exception) of [f(x)].  Building a [PingResult]
    or a [TraceHop] from a dictionary of utils.py rebuilds the record field
    by field: the dictionaries have the fields of the models, with values of
    their types.  What is not in the source text is a variable of the
    section: the message [str(e)] of an exception, the world each concurrent
    task of a bulk request runs in, and which of several failing tasks fails
    first. *)

(** What a handler hands back. *)
Inductive response (A : Type) : Type :=
| Returned (a : A)              (* the handler returned: status 200 *)
| HTTPException (status_code : Z) (detail : str)
| Unprocessable                 (* 422: a [Query] bound or a required
                                   parameter rejected the request *)
| Unhandled (e : exn).          (* an exception no clause catches *)
Arguments Returned {A} a.
Arguments HTTPException {A} status_code detail.
Arguments Unprocessable {A}.
Arguments Unhandled {A} e.

Module TracerouteResult.
Record t : Type := {
  host : str;
  hops : list TraceHop.t;
  timestamp : str
}.
End TracerouteResult.

(** The dictionary returned by [bulk_ping]. *)
Module BulkPing.
Record t : Type := {
  results : list PingResult.t;
  timestamp : str
}.
End BulkPing.

(** The dictionary returned by [get_allowed_hosts]. *)
Module AllowedHosts.
Record t : Type := {
  allowed_hosts : list str;
  count : Z;
  timestamp : str
}.
End AllowedHosts.

Definition ALLOWED_HOSTS : list str :=
  [py "1.1.1.1"; py "8.8.8.8"; py "8.8.4.4"; py "1.0.0.1"; py "google.com";
   py "cloudflare.com"; py "github.com"; py "stackoverflow.com";
   py "python.org"; py "fastapi.tiangolo.com"].

(** [x in s] *)
Definition contains (s : list str) (x : str) : bool := existsb (str_eqb x) s.

(** [a < b] on strings: by code points, a proper prefix first. *)
Fixpoint str_ltb (a b : str) : bool :=
  match a, b with
  | _, [] => false
  | [], _ :: _ => true
  | x :: a', y :: b' =>
      if (code x <? code y)%N then true
      else if (code y <? code x)%N then false
      else str_ltb a' b'
  end.

Fixpoint insert_sorted (x : str) (l : list str) : list str :=
  match l with
  | [] => [x]
  | y :: l' => if str_ltb y x then y :: insert_sorted x l' else x :: y :: l'
  end.

(** [sorted(s)] for a set of strings. *)
Definition sorted (s : list str) : list str :=
  fold_right insert_sorted [] (nodup (list_eq_dec ascii_dec) s).

(** [len(s)] for a set. *)
Definition len_set (s : list str) : Z :=
  Z.of_nat (List.length (nodup (list_eq_dec ascii_dec) s)).

(** [repr] of a string of printable characters without quote or backslash,
    as the allowed hosts are. *)
Definition repr_str (s : str) : str := py "'" ++ s ++ py "'".

Fixpoint join (sep : str) (l : list str) : str :=
  match l with
  | [] => []
  | [x] => x
  | x :: l' => x ++ sep ++ join sep l'
  end.

(** [str(l)] for a list of strings. *)
Definition repr_list (l : list str) : str :=
  py "[" ++ join (py ", ") (map repr_str l) ++ py "]".

(** The accented letters of the messages, by code point. *)
Definition a_acute : str := [ascii_of_nat 225].

(** ["Host '{host}' no está permitido. Hosts permitidos: {sorted(...)}"] *)
Definition detail_not_allowed (host : str) : str :=
  py "Host '" ++ host ++ py "' no est" ++ a_acute ++
  py " permitido. Hosts permitidos: " ++ repr_list (sorted ALLOWED_HOSTS).

(** ["Host '{host}' no es válido"] *)
Definition detail_not_valid (host : str) : str :=
  py "Host '" ++ host ++ py "' no es v" ++ a_acute ++ py "lido".

(** ["Máximo 5 hosts permitidos por solicitud"] *)
Definition detail_too_many : str :=
  py "M" ++ a_acute ++ py "ximo 5 hosts permitidos por solicitud".

Definition validate_host (host : str) : response unit :=
  if negb (contains ALLOWED_HOSTS host) then
    HTTPException 400 (detail_not_allowed host)
  else
    match is_valid_host host with
    | Ret true => Returned tt
    | Ret false => HTTPException 400 (detail_not_valid host)
    | Raise e => Unhandled e
    end.

(** [Query(default, ge=lo, le=hi)] *)
Definition query_in_range (lo hi v : Z) : bool := (lo <=? v) && (v <=? hi).

(** The exceptions among the outcomes of some tasks, in task order. *)
Definition raised {A : Type} (outcomes : list (exc A)) : list exn :=
  flat_map (fun o => match o with Raise e => [e] | Ret _ => [] end) outcomes.

(** The results of the tasks, in task order, when every task returned. *)
Fixpoint returned_all {A : Type} (outcomes : list (exc A))
    : option (list A) :=
  match outcomes with
  | [] => Some []
  | Ret a :: rest =>
      match returned_all rest with
      | Some l => Some (a :: l)
      | None => None
      end
  | Raise _ :: _ => None
  end.

Section Handlers.
(** [str(e)] *)
Variable exception_text : exn -> str.
(** The world the task at each position of a bulk request runs in. *)
Variable task_world : nat -> World.
(** Of the exceptions raised by the tasks, the one raised first. *)
Variable first_raised : list exn -> exn.

(** [await asyncio.gather] of the tasks: the results in the order of the
    tasks, or the first exception raised. *)
Definition gather {A : Type} (outcomes : list (exc A)) : exc (list A) :=
  match returned_all outcomes with
  | Some results => Ret results
  | None => Raise (first_raised (raised outcomes))
  end.

Definition do_ping (w : World) (host : str) (count : Z)
    : response PingResult.t :=
  if negb (query_in_range 1 10 count) then Unprocessable
  else
    match validate_host host with
    | Returned _ =>
        match ping w host count 2 with
        | Ret result => Returned result
        | Raise e =>
            HTTPException 500 (py "Error ejecutando ping: " ++ exception_text e)
        end
    | HTTPException status_code detail => HTTPException status_code detail
    | Unprocessable => Unprocessable
    | Unhandled e => Unhandled e
    end.

Definition do_traceroute (w : World) (host : str) (max_hops : Z)
    : response TracerouteResult.t :=
  if negb (query_in_range 1 50 max_hops) then Unprocessable
  else
    match validate_host host with
    | Returned _ =>
        match traceroute w host max_hops with
        | Ret hops_data =>
            Returned {| TracerouteResult.host := host;
                        TracerouteResult.hops := hops_data;
                        TracerouteResult.timestamp := now_isoformat w |}
        | Raise e =>
            HTTPException 500
              (py "Error ejecutando traceroute: " ++ exception_text e)
        end
    | HTTPException status_code detail => HTTPException status_code detail
    | Unprocessable => Unprocessable
    | Unhandled e => Unhandled e
    end.

Definition get_allowed_hosts (w : World) : AllowedHosts.t :=
  {| AllowedHosts.allowed_hosts := sorted ALLOWED_HOSTS;
     AllowedHosts.count := len_set ALLOWED_HOSTS;
     AllowedHosts.timestamp := now_isoformat w |}.

(** [for host in hosts: validate_host(host)] *)
Fixpoint validate_all (hosts : list str) : response unit :=
  match hosts with
  | [] => Returned tt
  | host :: rest =>
      match validate_host host with
      | Returned _ => validate_all rest
      | other => other
      end
  end.

(** [[loop.run_in_executor(None, ping, host, count) for host in hosts]],
    the task at position [i] running in [task_world i]. *)
Fixpoint ping_tasks (i : nat) (hosts : list str) (count : Z)
    : list (exc PingResult.t) :=
  match hosts with
  | [] => []
  | host :: rest =>
      ping (task_world i) host count 2 :: ping_tasks (S i) rest count
  end.

Definition bulk_ping (w : World) (hosts : list str) (count : Z)
    : response BulkPing.t :=
  if negb (query_in_range 1 10 count) then Unprocessable
  else
    match hosts with
    | [] => Unprocessable
    | _ =>
        if (5 <? List.length hosts)%nat then
          HTTPException 400 detail_too_many
        else
          match validate_all hosts with
          | Returned _ =>
              match gather (ping_tasks 0 hosts count) with
              | Ret results =>
                  Returned {| BulkPing.results := results;
                              BulkPing.timestamp := now_isoformat w |}
              | Raise e =>
                  HTTPException 500
                    (py "Error ejecutando ping masivo: " ++ exception_text e)
              end
          | HTTPException status_code detail =>
              HTTPException status_code detail
          | Unprocessable => Unprocessable
          | Unhandled e => Unhandled e
          end
    end.
End Handlers.

Module ErrorResponse.
Record t : Type := {
  detail : str;
  error_code : str;
  timestamp : str
}.
End ErrorResponse.

(** The handler registered for [HTTPException]: the status and the JSON body
    of the answer. *)
Definition custom_http_exception_handler (w : World) (status_code : Z)
    (detail : str) : Z * ErrorResponse.t :=
  (status_code,
   {| ErrorResponse.detail := detail;
      ErrorResponse.error_code := py "HTTP_" ++ str_of_Z status_code;
      ErrorResponse.timestamp := now_isoformat w |}).

(** * Specifications *)

(** ** The matcher against a declarative reading of the patterns *)

(** [Sem n0 r s c s' c']: [r] can consume the text between the suffix [s] and
    its suffix [s'], turning the groups [c] into [c']. *)
Inductive Sem (n0 : nat) : re -> str -> caps -> str -> caps -> Prop :=
| SemLit l s c : Sem n0 (Lit l) (l ++ s) c s c
| SemCls (p : ascii -> bool) a s c :
    p a = true -> Sem n0 (Cls p) (a :: s) c s c
| SemMany (p : ascii -> bool) l s c :
    Forall (fun a => p a = true) l -> Sem n0 (Many p) (l ++ s) c s c
| SemCat r1 r2 s c s1 c1 s2 c2 :
    Sem n0 r1 s c s1 c1 -> Sem n0 r2 s1 c1 s2 c2 ->
    Sem n0 (Cat r1 r2) s c s2 c2
| SemAltL r1 r2 s c s' c' :
    Sem n0 r1 s c s' c' -> Sem n0 (Alt r1 r2) s c s' c'
| SemAltR r1 r2 s c s' c' :
    Sem n0 r2 s c s' c' -> Sem n0 (Alt r1 r2) s c s' c'
| SemGrp i r s c s' c' :
    Sem n0 r s c s' c' ->
    Sem n0 (Grp i r) s c s' (set_cap i (consumed s s') c')
| SemBos s c : List.length s = n0 -> Sem n0 Bos s c s c
| SemEos s c : s = [] \/ s = py LF ->
    Sem n0 Eos s c s c.

#[local] Hint Constructors Sem : core.

(** ** Failure paths of [ping] *)

(** The three ways a ping can fail: the child exits non-zero, the child
    outlives the 30 second ceiling, or the [try] block of the platform's
    parser raises. *)
Inductive PingFailure (w : World) (host : str) (count timeout : Z) : Prop :=
| NonZeroExit proc :
    subprocess_run w (ping_cmd w host count timeout) (Some 30) = Ret proc ->
    returncode proc <> 0 ->
    PingFailure w host count timeout
| CeilingExceeded :
    subprocess_run w (ping_cmd w host count timeout) (Some 30)
      = Raise TimeoutExpired ->
    PingFailure w host count timeout
| ParsingRaised proc e :
    subprocess_run w (ping_cmd w host count timeout) (Some 30) = Ret proc ->
    returncode proc = 0 ->
    (if system_is_windows w
     then _parse_ping_windows_try w (stdout proc) host count
     else _parse_ping_linux_try w (stdout proc) host count) = Raise e ->
    PingFailure w host count timeout.

(** The parser [traceroute] applies on the platform of [w]. *)
Definition traceroute_parser (w : World) : str -> list TraceHop.t :=
  if system_is_windows w then _parse_traceroute_windows
  else _parse_traceroute_linux.



(** ** Signs of floats *)

(** [x] is not below zero: its sign bit is clear, or it is NaN. *)
Definition sign_clear (x : float) : Prop :=
  match x with
  | S754_zero s | S754_infinity s | S754_finite s _ _ => s = false
  | S754_nan => True
  end.

(** ** The Unix traceroute grammar, line by line *)

(** The double nearest to 23.4. *)
Definition rtt_23_4 : float := S754_finite false 6586514455029350 (-48).

(** The hop the specification reads off one line after the header: the line
    is split on blanks; the first token must be an integer, the hop number; a
    second token [*] gives the sentinel host and no round-trip time;
    otherwise the second token is the host and the third token, when there is
    one, must be a number, the round-trip time.  A line that does not fit
    gives no hop. *)
Definition unix_hop_of_line (line : str) : option TraceHop.t :=
  match split line with
  | first :: second :: more =>
      match int_of_str first with
      | Ret hop_no =>
          if str_eqb second (py "*") then
            Some {| TraceHop.hop := hop_no;
                    TraceHop.host := py "timeout";
                    TraceHop.rtt_ms := None |}
          else
            match more with
            | [] => Some {| TraceHop.hop := hop_no;
                            TraceHop.host := second;
                            TraceHop.rtt_ms := None |}
            | third :: _ =>
                match float_of_str third with
                | Ret rtt => Some {| TraceHop.hop := hop_no;
                                     TraceHop.host := second;
                                     TraceHop.rtt_ms := Some rtt |}
                | Raise _ => None
                end
            end
      | Raise _ => None
      end
  | _ => None
  end.

Definition hops_of (h : option TraceHop.t) : list TraceHop.t :=
  match h with
  | Some x => [x]
  | None => []
  end.

(** The digits a numeral without leading zero may begin with. *)
Definition nonzero_digit (a : ascii) : bool := between 49 57 a.

(** The lines after the header. *)
Definition data_lines (output : str) : list str := tl (splitlines output).

(** ** The Windows statistics line *)

(** A non-empty run of decimal digits. *)
Definition numeral (ds : str) : Prop :=
  ds <> [] /\ Forall (fun a => isdigit a = true) ds.



(** The double nearest to the number that the digits [ds] denote. *)
Definition float_of_numeral (ds : str) : float :=
  float_of_decimal false (digits_value ds) 0.

(** ** Host names as the specification describes them *)



(** One or more characters of [[A-Za-z0-9.-]], a dot, and two or more
    letters. *)
Definition DomainShape (s : str) : Prop :=
  exists body tld,
    s = body ++ py "." ++ tld /\
    body <> [] /\ Forall (fun a => host_char a = true) body /\
    (2 <= List.length tld)%nat /\
    Forall (fun a => isalpha_ascii a = true) tld.

(** The same, possibly followed by one line feed: what [$] lets through. *)
Definition DomainShapeLF (s : str) : Prop :=
  exists tail, (tail = [] \/ tail = py LF) /\
    exists s0, s = s0 ++ tail /\ DomainShape s0.

(** ** The range of counts and percentages the service works in *)



(** ** Worlds and texts used in examples *)

(** A Unix-like machine at [clock] on which [run] stands for every child
    process and no traceroute binary is installed. *)
Definition unix_world (run : exc CompletedProcess) (clock : string) : World :=
  {| platform_system := py "Linux";
     subprocess_run := fun _ _ => run;
     os_path_isfile := fun _ => false;
     os_access_X_OK := fun _ => false;
     now_isoformat := py clock |}.

Definition windows_world (run : exc CompletedProcess) (clock : string)
    : World :=
  {| platform_system := py "Windows";
     subprocess_run := fun _ _ => run;
     os_path_isfile := fun _ => false;
     os_access_X_OK := fun _ => false;
     now_isoformat := py clock |}.

Definition exited (rc : Z) (out : string) : exc CompletedProcess :=
  Ret {| returncode := rc; stdout := py out |}.

(** Spanish-locale statistics as a Unix ping prints them. *)
Definition spanish_stats : string :=
  "4 paquetes transmitidos, 2 recibidos, 50% perdidos, tiempo 3004ms".


(** The start of a Unix traceroute run that was cut short. *)
Definition partial_trace : string :=
  "traceroute to 8.8.8.8 (8.8.8.8), 30 hops max" ++ LF ++ " 1  10.0.0.1  1 ms".

Definition unix_header : string :=
  "traceroute to 192.0.2.1 (192.0.2.1), 30 hops max, 60 byte packets".

Definition windows_trace : string :=
  "  1    <1 ms    <1 ms    <1 ms  192.168.1.1" ++ LF ++
  "  2     *        *        *     Request timed out.".


(** ** The traceroute binary, declaratively *)




(** ** Ping statistics as the tools print them *)

(** A non-empty run of digits and dots, what [[\d.]+] takes. *)
Definition decimal_text (g : str) : Prop :=
  g <> [] /\ Forall (fun a => digit_or_dot a = true) g.

(** [min/avg/max<mid>= <a>/<b>/<c>] *)
Definition unix_stats_line (mid a b c : str) : str :=
  py "min/avg/max" ++ mid ++ py "= " ++ a ++ py "/" ++ b ++ py "/" ++ c.

Definition HasUnixStatsLine (output : str) : Prop :=
  exists pre mid a b c post,
    Forall (fun x => any_but_newline x = true) mid /\
    decimal_text a /\ decimal_text b /\ decimal_text c /\
    output = pre ++ unix_stats_line mid a b c ++ post.




(** ** Shapes of traceroute hops *)

(** Four numerals separated by dots, what [ip_pattern] takes. *)
Definition DottedNumerals (s : str) : Prop :=
  exists a b c d,
    numeral a /\ numeral b /\ numeral c /\ numeral d /\
    s = a ++ py "." ++ b ++ py "." ++ c ++ py "." ++ d.

(** A token of [str.split()]: not empty and free of blanks. *)
Definition token (t : str) : Prop :=
  t <> [] /\ Forall (fun a => isspace a = false) t.

(** ** The alphabet of numeric addresses *)

(** The characters the C library's [inet_aton] reads as part of an address:
    hexadecimal digits, the [x] of a hexadecimal prefix, and dots. *)
Definition addr_char (a : ascii) : bool :=
  ishex a || is_char "x" (lower a) || is_char "." a.

(** ** The HTTP layer *)

(** Strictly ascending in the order of [str]. *)
Fixpoint ascending (l : list str) : bool :=
  match l with
  | a :: (b :: _) as rest => str_ltb a b && ascending rest
  | _ => true
  end.

(** What a result of [ping host count] shows of its request. *)
Definition answers (count : Z) (host : str) (r : PingResult.t) : Prop :=
  PingResult.host r = host /\
  PingResult.packets_transmitted r = count /\
  PingResult.packets_received r <= count.



(** What a client can be sent for a response of a handler: the value it
    returned, the framework's 422, or the body that
    [custom_http_exception_handler] builds for a 400 or a 500; never an
    exception that nothing handles. *)
Definition answered {A : Type} (w : World) (r : response A) : Prop :=
  match r with
  | Returned _ | Unprocessable => True
  | HTTPException status_code detail =>
      let body := snd (custom_http_exception_handler w status_code detail) in
      ErrorResponse.detail body = detail /\
      (status_code = 400 /\ ErrorResponse.error_code body = py "HTTP_400" \/
       status_code = 500 /\ ErrorResponse.error_code body = py "HTTP_500")
  | Unhandled _ => False
  end.

(** * Properties *)

(** ** The exception monad *)

Lemma catch_any_total {A : Type} (body : exc A) (a : A) :
  exists r, catch body any_exception (Ret a) = Ret r.
Proof. destruct body as [r|e]; simpl; eauto. Qed.

(** ** Lists of characters *)

Lemma consumed_app (l s : str) : consumed (l ++ s) s = l.
Proof.
  unfold consumed. rewrite length_app.
  replace (List.length l + List.length s - List.length s)%nat
    with (List.length l) by lia.
  rewrite firstn_app, firstn_all, Nat.sub_diag. simpl. apply app_nil_r.
Qed.

Lemma strip_prefix_app (l s : str) : strip_prefix l (l ++ s) = Some s.
Proof.
  induction l as [|a l IH]; simpl; auto.
  destruct (ascii_dec a a); [exact IH | congruence].
Qed.

Lemma strip_prefix_inv (l s s' : str) :
  strip_prefix l s = Some s' -> s = l ++ s'.
Proof.
  revert s. induction l as [|a l IH]; intros [|b s] H; simpl in *;
    try congruence.
  destruct (ascii_dec a b); [|discriminate].
  subst. f_equal. auto.
Qed.

(** ** The matcher is sound and complete for [Sem] *)

Section MatcherFacts.
Variable R : Type.
Variable n0 : nat.

Lemma many_sound (p : ascii -> bool) (s : str) (k : str -> option R) x :
  many p s k = Some x ->
  exists l s', s = l ++ s' /\ Forall (fun a => p a = true) l /\
               k s' = Some x.
Proof.
  induction s as [|a s IH]; simpl; intro H.
  - exists [], []. auto.
  - destruct (p a) eqn:Hp.
    + destruct (many p s k) eqn:Hm.
      * inversion H; subst.
        destruct (IH eq_refl) as (l & s' & -> & Hl & Hk).
        exists (a :: l), s'. auto.
      * exists [], (a :: s). auto.
    + exists [], (a :: s). auto.
Qed.

Lemma many_complete (p : ascii -> bool) (l s' : str)
    (k : str -> option R) :
  Forall (fun a => p a = true) l -> k s' <> None ->
  many p (l ++ s') k <> None.
Proof.
  intros Hl Hk. induction Hl as [|a l Ha Hl IH]; simpl.
  - destruct s' as [|b s']; simpl; auto.
    destruct (p b); auto. destruct (many p s' k); [discriminate | auto].
  - rewrite Ha. destruct (many p (l ++ s') k); [discriminate | contradiction].
Qed.

Lemma rmatch_sound (r : re) : forall s c (k : str -> caps -> option R) x,
  rmatch n0 r s c k = Some x ->
  exists s' c', Sem n0 r s c s' c' /\ k s' c' = Some x.
Proof.
  induction r as [l|p|p|r1 IH1 r2 IH2|r1 IH1 r2 IH2|i r IH| |];
    intros s c k x H; simpl in H.
  - destruct (strip_prefix l s) as [s'|] eqn:Hs; [|discriminate].
    apply strip_prefix_inv in Hs. subst. eauto.
  - destruct s as [|a s]; [discriminate|].
    destruct (p a) eqn:Hp; [|discriminate]. eauto.
  - apply many_sound in H. destruct H as (l & s' & -> & Hl & Hk). eauto.
  - apply IH1 in H. destruct H as (s1 & c1 & H1 & H).
    apply IH2 in H. destruct H as (s2 & c2 & H2 & H). eauto.
  - destruct (rmatch n0 r1 s c k) eqn:H1.
    + inversion H; subst. apply IH1 in H1.
      destruct H1 as (s' & c' & ? & ?). eauto.
    + apply IH2 in H. destruct H as (s' & c' & ? & ?). eauto.
  - apply IH in H. destruct H as (s' & c' & ? & ?). eauto.
  - destruct (Nat.eqb (List.length s) n0) eqn:E; [|discriminate].
    apply Nat.eqb_eq in E. eauto.
  - destruct s as [|a [|b s]]; try discriminate.
    + exists [], c. split; [constructor; now left | assumption].
    + destruct (code a =? 10)%N eqn:E; [|discriminate].
      apply N.eqb_eq in E. exists [a], c. split; [|assumption].
      constructor. right. unfold py. simpl. f_equal.
      unfold code in E. rewrite <- (ascii_N_embedding a), E. reflexivity.
Qed.

Lemma rmatch_complete (r : re) s c s' c' :
  Sem n0 r s c s' c' ->
  forall k : str -> caps -> option R,
    k s' c' <> None -> rmatch n0 r s c k <> None.
Proof.
  induction 1; intros k Hk; simpl.
  - rewrite strip_prefix_app. exact Hk.
  - rewrite H. exact Hk.
  - apply many_complete; assumption.
  - apply IHSem1. apply IHSem2. exact Hk.
  - destruct (rmatch n0 r1 s c k) eqn:E; [discriminate|].
    exfalso. revert E. apply IHSem. exact Hk.
  - destruct (rmatch n0 r1 s c k); [discriminate|]. apply IHSem. exact Hk.
  - apply IHSem. exact Hk.
  - rewrite H, Nat.eqb_refl. exact Hk.
  - destruct H as [->| ->]; simpl; exact Hk.
Qed.
End MatcherFacts.

(** ** Searching *)

Lemma match_here_sound r n0 s m :
  match_here r n0 s = Some m ->
  exists s' c', Sem n0 r s no_caps s' c' /\
    m = {| m_start := n0 - List.length s; m_text := consumed s s';
           m_groups := c'; m_rest := s' |}.
Proof.
  unfold match_here. intro H. apply rmatch_sound in H.
  destruct H as (s' & c' & HS & Hk). exists s', c'.
  split; [exact HS | now injection Hk].
Qed.

Lemma search_from_sound r n0 s m :
  search_from r n0 s = Some m ->
  exists pre suf, s = pre ++ suf /\ match_here r n0 suf = Some m.
Proof.
  induction s as [|a s IH]; cbn [search_from]; intro H.
  - destruct (match_here r n0 []) eqn:E; [|discriminate].
    exists [], []. split; [reflexivity | congruence].
  - destruct (match_here r n0 (a :: s)) eqn:E.
    + exists [], (a :: s). split; [reflexivity | congruence].
    + destruct (IH H) as (pre & suf & -> & Hm).
      exists (a :: pre), suf. auto.
Qed.

Lemma search_from_complete r n0 pre suf :
  match_here r n0 suf <> None -> search_from r n0 (pre ++ suf) <> None.
Proof.
  intro H. induction pre as [|a pre IH].
  - destruct suf; cbn [app search_from];
      destruct (match_here r n0 _); congruence.
  - cbn [app search_from].
    destruct (match_here r n0 (a :: pre ++ suf)); [discriminate | exact IH].
Qed.

Lemma consumed_cons_app a (l s : str) : consumed (a :: l ++ s) s = a :: l.
Proof. exact (consumed_app (a :: l) s). Qed.

Ltac inv_sem :=
  repeat match goal with
  | H : Sem _ (Cat _ _) _ _ _ _ |- _ => inversion H; clear H; subst
  | H : Sem _ (Grp _ _) _ _ _ _ |- _ => inversion H; clear H; subst
  | H : Sem _ (Lit _) _ _ _ _ |- _ => inversion H; clear H; subst
  | H : Sem _ (Cls _) _ _ _ _ |- _ => inversion H; clear H; subst
  | H : Sem _ (Many _) _ _ _ _ |- _ => inversion H; clear H; subst
  | H : Sem _ Bos _ _ _ _ |- _ => inversion H; clear H; subst
  | H : Sem _ Eos _ _ _ _ |- _ => inversion H; clear H; subst
  end.

Lemma loss_match_groups output m :
  re_search LOSS_RE output = Some m ->
  exists ds, ds <> [] /\ Forall (fun a => isdigit a = true) ds /\
    ((group m 1 = Some ds /\ group m 2 = None) \/
     (group m 1 = None /\ group m 2 = Some ds)).
Proof.
  unfold re_search. intro H.
  apply search_from_sound in H. destruct H as (pre & suf & _ & H).
  apply match_here_sound in H. destruct H as (s' & c' & HS & ->).
  unfold LOSS_RE, Many1 in HS.
  inversion HS; clear HS; subst; inv_sem.
  - exists (a :: l). split; [discriminate|]. split; [now constructor|].
    left. unfold group. cbn [m_groups].
    rewrite consumed_cons_app. split; reflexivity.
  - exists (a :: l). split; [discriminate|]. split; [now constructor|].
    right. unfold group. cbn [m_groups].
    rewrite consumed_cons_app. split; reflexivity.
Qed.

(** ** Signs and truncation of floats *)

Lemma binary_round_aux_sign sx mx ex lx :
  match binary_round_aux prec emax sx mx ex lx with
  | S754_zero s | S754_infinity s | S754_finite s _ _ => s = sx
  | S754_nan => True
  end.
Proof.
  unfold binary_round_aux.
  destruct (shr_fexp prec emax mx ex lx) as [mrs' e'].
  destruct (shr_fexp prec emax _ e' loc_Exact) as [mrs'' e''].
  destruct (shr_m mrs''); auto.
  destruct (e'' <=? emax - prec); auto.
Qed.

Lemma binary_round_sign sx mx ex :
  match binary_round prec emax sx mx ex with
  | S754_zero s | S754_infinity s | S754_finite s _ _ => s = sx
  | S754_nan => True
  end.
Proof.
  unfold binary_round.
  destruct (shl_align mx ex _) as [mz ez]. apply binary_round_aux_sign.
Qed.

Lemma round_Z_sign_clear z : 0 <= z -> sign_clear (round_Z z).
Proof.
  intro Hz. unfold round_Z, binary_normalize, sign_clear.
  destruct z as [|p|p]; [reflexivity| |lia].
  apply binary_round_sign.
Qed.

Lemma fmul_sign_clear x y :
  sign_clear x -> sign_clear y -> sign_clear (fmul x y).
Proof.
  unfold sign_clear, fmul.
  destruct x as [sx|sx| |sx mx ex], y as [sy|sy| |sy my ey]; simpl;
    intros Hx Hy; subst; auto.
  apply (binary_round_aux_sign false).
Qed.

Lemma fdiv_sign_clear x y :
  sign_clear x -> sign_clear y -> sign_clear (fdiv x y).
Proof.
  unfold sign_clear, fdiv.
  destruct x as [sx|sx| |sx mx ex], y as [sy|sy| |sy my ey]; simpl;
    intros Hx Hy; subst; auto.
  destruct (SFdiv_core_binary prec emax (Z.pos mx) ex (Z.pos my) ey)
    as [[mz ez] lz].
  apply (binary_round_aux_sign false).
Qed.

Lemma int_of_float_floor x n :
  sign_clear x -> int_of_float x = Ret n ->
  0 <= n /\ floor_of_float x = Some n.
Proof.
  destruct x as [s|s| |s m e]; unfold sign_clear, int_of_float, floor_of_float;
    intros Hs H; try discriminate.
  - inversion H. split; [lia | reflexivity].
  - subst s. unfold cond_Zopp in *.
    assert (Hn : (if 0 <=? e then Z.pos m * 2 ^ e
                  else Z.quot (Z.pos m) (2 ^ (- e))) = n) by congruence.
    clear H. destruct (0 <=? e) eqn:E.
    + split; [|now rewrite Hn]. apply Z.leb_le in E. subst n.
      apply Z.mul_nonneg_nonneg; [lia|]. apply Z.pow_nonneg. lia.
    + apply Z.leb_gt in E.
      assert (0 < 2 ^ (- e)) by (apply Z.pow_pos_nonneg; lia).
      rewrite Z.quot_div_nonneg in Hn by lia.
      split; [|now rewrite Hn]. subst n. apply Z.div_pos; lia.
Qed.

Lemma received_of_bound count loss n :
  0 <= count -> sign_clear loss -> received_of count loss = Ret n ->
  n <= count /\
  exists c q, float_of_int count = Ret c /\
              floor_of_float (fdiv (fmul c loss) f100) = Some q /\
              n = count - q.
Proof.
  intros Hc Hl. unfold received_of, float_of_int.
  pose proof (round_Z_sign_clear Hc) as Hs.
  destruct (is_finite (round_Z count)); [|discriminate].
  cbn [bind].
  destruct (int_of_float (fdiv (fmul (round_Z count) loss) f100)) as [q|e]
    eqn:E; [|discriminate].
  cbn [bind]. intro H. injection H as <-.
  apply int_of_float_floor in E.
  - destruct E as [Hq Hf]. split; [lia|]. exists (round_Z count), q. auto.
  - apply fdiv_sign_clear; [apply fmul_sign_clear; assumption | reflexivity].
Qed.


(** ** Characters *)

Ltac each_char a :=
  destruct a as [[] [] [] [] [] [] [] []]; try discriminate; try reflexivity.

Lemma isdigit_not_space a : isdigit a = true -> isspace a = false.
Proof. each_char a. Qed.

Lemma isdigit_not_sign a :
  isdigit a = true -> (code a =? 45)%N = false /\ (code a =? 43)%N = false.
Proof. each_char a; intros _; split; reflexivity. Qed.

Lemma isdigit_lower a : isdigit a = true -> lower a = a.
Proof. each_char a. Qed.

Lemma lstrip_digit a s : isdigit a = true -> lstrip (a :: s) = a :: s.
Proof. intro H. simpl. now rewrite (isdigit_not_space _ H). Qed.

Lemma lstrip_app_nonspace s a t :
  isspace a = false -> lstrip (s ++ a :: t) = lstrip s ++ a :: t \/
                       (lstrip s = [] /\ lstrip (s ++ a :: t) = a :: t).
Proof.
  intro Ha. induction s as [|b s IH]; simpl.
  - rewrite Ha. now left.
  - destruct (isspace b); [exact IH | now left].
Qed.

Lemma strip_digits ds :
  Forall (fun a => isdigit a = true) ds -> strip ds = ds.
Proof.
  intro H. unfold strip, rstrip.
  assert (Hl : forall l, Forall (fun a => isdigit a = true) l -> lstrip l = l).
  { intros [|a l] Hf; [reflexivity|]. inversion Hf; subst.
    now apply lstrip_digit. }
  rewrite (Hl ds H), Hl; [apply rev_involutive|].
  now apply Forall_rev.
Qed.

Lemma scan_digits_all ds :
  Forall (fun a => isdigit a = true) ds -> scan_digits ds = (ds, []).
Proof.
  induction 1 as [|a l Ha Hl IH]; simpl; [reflexivity|].
  now rewrite Ha, IH.
Qed.

Lemma digitpart_all a ds :
  Forall (fun a => isdigit a = true) (a :: ds) ->
  digitpart (a :: ds) = Some (a :: ds, []).
Proof.
  intro H. inversion H as [|? ? Ha Hl]; subst. simpl.
  now rewrite Ha, (scan_digits_all Hl).
Qed.

Lemma str_eqb_head a l b l' : a <> b -> str_eqb (a :: l) (b :: l') = false.
Proof.
  intro H. unfold str_eqb.
  destruct (list_eq_dec ascii_dec (a :: l) (b :: l')); congruence.
Qed.

Lemma digit_not_letter a : isdigit a = true ->
  a <> "i"%char /\ a <> "n"%char.
Proof. each_char a; intros _; split; discriminate. Qed.

(** [float] of a run of digits is the double nearest to the number they
    denote. *)
Lemma float_of_digits ds :
  ds <> [] -> Forall (fun a => isdigit a = true) ds ->
  float_of_str ds = Ret (float_of_decimal false (digits_value ds) 0).
Proof.
  intros Hne H. destruct ds as [|a ds]; [contradiction|].
  unfold float_of_str. rewrite (strip_digits H).
  inversion H as [|? ? Ha Hl]; subst.
  destruct (isdigit_not_sign _ Ha) as [H1 H2].
  unfold read_sign. rewrite H1, H2.
  cbn [map]. rewrite (isdigit_lower _ Ha).
  destruct (digit_not_letter _ Ha) as [Hi Hn].
  cbn [py list_ascii_of_string].
  rewrite !str_eqb_head by assumption. cbn [orb].
  unfold read_number. rewrite (digitpart_all H).
  now rewrite app_nil_r.
Qed.

Lemma float_of_decimal_sign_clear n e :
  sign_clear (float_of_decimal false n e).
Proof.
  unfold float_of_decimal. destruct n as [|p|p]; try reflexivity.
  destruct (0 <=? e) eqn:E.
  - apply Z.leb_le in E. unfold cond_Zopp.
    apply (@round_Z_sign_clear (Z.pos p * 10 ^ e)).
    apply Z.mul_nonneg_nonneg; [lia|]. apply Z.pow_nonneg. lia.
  - destruct (SFdiv_core_binary prec emax (Z.pos p) 0 (10 ^ (- e)) 0)
      as [[q e'] l].
    apply (binary_round_aux_sign false).
Qed.

(** ** Blanks, tokens and numerals *)

Lemma lstrip_nil s : lstrip s = [] -> Forall (fun a => isspace a = true) s.
Proof.
  induction s as [|a s IH]; simpl; intro H; [constructor|].
  destruct (isspace a) eqn:E; [|discriminate]. constructor; auto.
Qed.

Lemma lstrip_head s a t : lstrip s = a :: t -> isspace a = false.
Proof.
  induction s as [|b s IH]; simpl; [discriminate|].
  destruct (isspace b) eqn:E; [exact IH|]. intro H. now injection H as <- _.
Qed.

Lemma rstrip_keeps_head a t :
  isspace a = false -> exists u, rstrip (a :: t) = a :: u.
Proof.
  intro Ha. unfold rstrip. cbn [rev].
  destruct (@lstrip_app_nonspace (rev t) a [] Ha) as [H|[_ H]]; rewrite H.
  - rewrite rev_app_distr. cbn. eauto.
  - cbn. eauto.
Qed.

Lemma strip_nil s : strip s = [] -> Forall (fun a => isspace a = true) s.
Proof.
  unfold strip. intro H.
  destruct (lstrip s) as [|a t] eqn:E; [now apply lstrip_nil|].
  destruct (@rstrip_keeps_head a t (lstrip_head _ E)) as (u & Hu). congruence.
Qed.

Lemma strip_head s a t : strip s = a :: t -> exists u, lstrip s = a :: u.
Proof.
  unfold strip. destruct (lstrip s) as [|b u] eqn:E.
  - cbn. discriminate.
  - destruct (@rstrip_keeps_head b u (lstrip_head _ E)) as (v & Hv).
    rewrite Hv. intro H. injection H as <- _. eauto.
Qed.

Lemma split_aux_blank s :
  Forall (fun a => isspace a = true) s -> split_aux s [] = [].
Proof. induction 1 as [|a s Ha _ IH]; simpl; [|rewrite Ha]; auto. Qed.

Lemma split_aux_token s tok :
  tok <> [] -> exists more rest, split_aux s tok = (rev tok ++ more) :: rest.
Proof.
  revert tok. induction s as [|a s IH]; intros tok Hne; simpl.
  - destruct tok; [contradiction|]. exists [], []. now rewrite app_nil_r.
  - destruct (isspace a).
    + destruct tok; [contradiction|]. exists [], (split_aux s []).
      now rewrite app_nil_r.
    + destruct (IH (a :: tok)) as (more & rest & H); [discriminate|].
      rewrite H. cbn [rev]. rewrite <- app_assoc. cbn. eauto.
Qed.

(** The first token of a line is where its stripped text begins. *)
Lemma split_lstrip s a u :
  lstrip s = a :: u -> exists more rest, split s = (a :: more) :: rest.
Proof.
  unfold split. induction s as [|b s IH]; simpl; [discriminate|].
  destruct (isspace b) eqn:E; [exact IH|].
  intro H. injection H as <- _.
  destruct (@split_aux_token s [b]) as (more & rest & H); [discriminate|].
  rewrite H. cbn. eauto.
Qed.

Lemma startswith_head s a p : startswith s (a :: p) = true ->
  exists t, s = a :: t.
Proof.
  destruct s as [|b s]; simpl; [discriminate|].
  destruct (ascii_dec a b); [subst; eauto | discriminate].
Qed.

Lemma nonzero_digit_facts a : nonzero_digit a = true ->
  isdigit a = true /\ isspace a = false /\ 1 <= digit_val a.
Proof. each_char a; intros _; repeat split; cbv; discriminate. Qed.

Lemma isdigit_val a : isdigit a = true -> 0 <= digit_val a.
Proof. each_char a; intros _; cbv; discriminate. Qed.

Lemma scan_digits_digits s :
  Forall (fun a => isdigit a = true) (fst (scan_digits s)).
Proof.
  assert (H : forall n s, (List.length s <= n)%nat ->
            Forall (fun a => isdigit a = true) (fst (scan_digits s))).
  { induction n as [|n IH]; intros [|c r] Hn; simpl in *; try constructor;
      try lia.
    destruct (isdigit c) eqn:Hc.
    - assert (Hr : (List.length r <= n)%nat) by lia.
      specialize (IH r Hr). destruct (scan_digits r). cbn in *. auto.
    - destruct (code c =? 95)%N; [|constructor].
      destruct r as [|d r']; [constructor|].
      destruct (isdigit d) eqn:Hd; [|constructor].
      assert (Hr : (List.length r' <= n)%nat) by (simpl in Hn; lia).
      specialize (IH r' Hr).
      destruct (scan_digits r'). cbn in *. auto. }
  eauto.
Qed.

Lemma digits_value_from acc ds :
  Forall (fun a => isdigit a = true) ds -> 1 <= acc ->
  1 <= fold_left (fun acc d => 10 * acc + digit_val d) ds acc.
Proof.
  intro H. revert acc.
  induction H as [|d ds Hd _ IH]; intros acc Ha; cbn [fold_left];
    [assumption|].
  apply IH. pose proof (isdigit_val _ Hd). lia.
Qed.

(** A numeral that begins with a digit other than 0 denotes a positive
    integer. *)
Lemma int_of_str_positive a t v :
  nonzero_digit a = true -> int_of_str (a :: t) = Ret v -> 1 <= v.
Proof.
  intros Ha. destruct (nonzero_digit_facts _ Ha) as (Hd & Hs & Hv).
  unfold int_of_str, strip. cbn [lstrip]. rewrite Hs.
  destruct (@rstrip_keeps_head a t Hs) as (u & ->).
  destruct (isdigit_not_sign _ Hd) as [H1 H2].
  unfold read_sign. rewrite H1, H2.
  unfold digitpart. rewrite Hd.
  pose proof (scan_digits_digits u) as Hds.
  destruct (scan_digits u) as [ds rest]. cbn [fst] in Hds.
  destruct rest; [|discriminate].
  intro H. injection H as <-.
  unfold digits_value. cbn [fold_left].
  apply digits_value_from; [assumption|]. lia.
Qed.

Lemma int_of_str_raises s e : int_of_str s = Raise e -> e = ValueError.
Proof.
  unfold int_of_str. destruct (read_sign (strip s)) as [neg body].
  destruct (digitpart body) as [[ds [|c r]]|]; congruence.
Qed.

Lemma float_of_str_raises s e : float_of_str s = Raise e -> e = ValueError.
Proof.
  unfold float_of_str. destruct (read_sign (strip s)) as [neg body].
  destruct (_ || _); [discriminate|].
  destruct (str_eqb _ _); [discriminate|].
  destruct (read_number body) as [[[ip fp] [|c r]]|]; try congruence.
  destruct (read_exponent (c :: r)) as [[x [|c' r']]|]; congruence.
Qed.

(** ** Decimal numerals of positive numbers *)

Lemma digit_char_nonzero d :
  (1 <= d <= 9)%N -> nonzero_digit (digit_char d) = true.
Proof.
  intro H.
  assert (Hd : In d [1;2;3;4;5;6;7;8;9]%N).
  { destruct d as [|p]; [lia|].
    do 9 (destruct p as [p|p|]; try lia; cbn; auto 12). }
  cbn in Hd. repeat destruct Hd as [<-|Hd]; try reflexivity. contradiction.
Qed.

Lemma digits_of_head fuel : forall n acc,
  (1 <= n)%N -> (n < 2 ^ N.of_nat fuel)%N ->
  exists c rest, digits_of fuel n acc = c :: rest /\ nonzero_digit c = true.
Proof.
  induction fuel as [|fuel IH]; intros n acc Hn Hlt.
  - cbn in Hlt. lia.
  - cbn [digits_of]. destruct (n / 10 =? 0)%N eqn:E.
    + apply N.eqb_eq in E. apply N.div_small_iff in E; [|lia].
      rewrite N.mod_small by assumption.
      eexists _, _. split; [reflexivity|]. apply digit_char_nonzero. lia.
    + apply N.eqb_neq in E. apply IH.
      * destruct (n / 10)%N; [contradiction | lia].
      * rewrite Nat2N.inj_succ, N.pow_succ_r' in Hlt.
        apply N.Div0.div_lt_upper_bound; lia.
Qed.

Lemma str_of_N_head n :
  (1 <= n)%N ->
  exists c rest, str_of_N n = c :: rest /\ nonzero_digit c = true.
Proof.
  intro Hn. unfold str_of_N. apply digits_of_head; [assumption|].
  rewrite Nat2N.inj_succ, N2Nat.id. apply N.log2_spec. lia.
Qed.

(** ** The ping parsers always return *)

Lemma _parse_ping_linux_total w output host count :
  exists r, _parse_ping_linux w output host count = Ret r.
Proof. apply catch_any_total. Qed.

Lemma _parse_ping_windows_total w output host count :
  exists r, _parse_ping_windows w output host count = Ret r.
Proof. apply catch_any_total. Qed.

Lemma parse_raised_linux w output host count e :
  _parse_ping_linux_try w output host count = Raise e ->
  _parse_ping_linux w output host count = Ret (full_loss w host count).
Proof. unfold _parse_ping_linux. intros ->. reflexivity. Qed.

Lemma parse_raised_windows w output host count e :
  _parse_ping_windows_try w output host count = Raise e ->
  _parse_ping_windows w output host count = Ret (full_loss w host count).
Proof. unfold _parse_ping_windows. intros ->. reflexivity. Qed.

(** ** What the ping parsers return when their [try] block succeeds *)

Lemma linux_try_facts w output host count r :
  _parse_ping_linux_try w output host count = Ret r ->
  PingResult.packets_transmitted r = count /\
  sign_clear (PingResult.packet_loss r) /\
  received_of count (PingResult.packet_loss r)
    = Ret (PingResult.packets_received r).
Proof.
  unfold _parse_ping_linux_try.
  destruct (match re_search PING_RE_LINUX output with
            | Some m => _ | None => _ end) as [[[mn av] mx]|e];
    cbn [bind]; [|discriminate].
  assert (HL : forall loss,
    match re_search LOSS_RE output with
    | Some m => float_of_group (group m 1)
    | None => Ret f0
    end = Ret loss -> sign_clear loss).
  { intros loss. destruct (re_search LOSS_RE output) as [m|] eqn:E.
    - destruct (loss_match_groups _ E) as (ds & Hne & Hd & [[H1 _]|[H1 _]]);
        rewrite H1; cbn [float_of_group]; [|discriminate].
      rewrite (float_of_digits Hne Hd). intro H. injection H as <-.
      apply float_of_decimal_sign_clear.
    - intro H. injection H as <-. reflexivity. }
  destruct (match re_search LOSS_RE output with
            | Some m => _ | None => _ end) as [loss|e];
    cbn [bind]; [|discriminate].
  specialize (HL loss eq_refl).
  destruct (received_of count loss) as [n|e] eqn:E; cbn [bind];
    [|discriminate].
  intro H. injection H as <-. cbn. auto.
Qed.

Lemma windows_try_facts w output host count r :
  _parse_ping_windows_try w output host count = Ret r ->
  PingResult.packets_transmitted r = count /\
  sign_clear (PingResult.packet_loss r) /\
  received_of count (PingResult.packet_loss r)
    = Ret (PingResult.packets_received r).
Proof.
  unfold _parse_ping_windows_try.
  destruct (match re_search PING_RE_WINDOWS output with
            | Some m => _ | None => _ end) as [[[mn av] mx]|e];
    cbn [bind]; [|discriminate].
  assert (HL : forall loss,
    match re_search LOSS_RE output with
    | Some m => float_of_group (py_or (group m 1) (group m 2))
    | None => Ret f0
    end = Ret loss -> sign_clear loss).
  { intros loss. destruct (re_search LOSS_RE output) as [m|] eqn:E.
    - destruct (loss_match_groups _ E)
        as (ds & Hne & Hd & [[H1 H2]|[H1 H2]]);
        rewrite H1, H2; destruct ds as [|d ds]; try contradiction;
        cbn [py_or float_of_group];
        rewrite (float_of_digits Hne Hd); intro H; injection H as <-;
        apply float_of_decimal_sign_clear.
    - intro H. injection H as <-. reflexivity. }
  destruct (match re_search LOSS_RE output with
            | Some m => _ | None => _ end) as [loss|e];
    cbn [bind]; [|discriminate].
  specialize (HL loss eq_refl).
  destruct (received_of count loss) as [n|e] eqn:E; cbn [bind];
    [|discriminate].
  intro H. injection H as <-. cbn. auto.
Qed.

Lemma ping_result_cases w host count timeout r :
  ping w host count timeout = Ret r ->
  r = full_loss w host count \/
  exists output,
    (if system_is_windows w
     then _parse_ping_windows_try w output host count
     else _parse_ping_linux_try w output host count) = Ret r.
Proof.
  unfold ping.
  destruct (subprocess_run w _ _) as [proc|e]; cbn [bind catch].
  - destruct (negb (returncode proc =? 0)); cbn [catch].
    + intro H. left. congruence.
    + destruct (system_is_windows w) eqn:Ew.
      * unfold _parse_ping_windows.
        destruct (_parse_ping_windows_try w (stdout proc) host count)
          as [r'|e] eqn:E; cbn [catch any_exception].
        -- intro H. right. exists (stdout proc). congruence.
        -- intro H. left. congruence.
      * unfold _parse_ping_linux.
        destruct (_parse_ping_linux_try w (stdout proc) host count)
          as [r'|e] eqn:E; cbn [catch any_exception].
        -- intro H. right. exists (stdout proc). congruence.
        -- intro H. left. congruence.
  - destruct (is_TimeoutExpired e); [|discriminate].
    intro H. left. congruence.
Qed.

Lemma try_facts w output host count r :
  (if system_is_windows w
   then _parse_ping_windows_try w output host count
   else _parse_ping_linux_try w output host count) = Ret r ->
  PingResult.packets_transmitted r = count /\
  sign_clear (PingResult.packet_loss r) /\
  received_of count (PingResult.packet_loss r)
    = Ret (PingResult.packets_received r).
Proof.
  destruct (system_is_windows w);
    [apply windows_try_facts | apply linux_try_facts].
Qed.

(** ** What becomes of a command that cannot be run (C1) *)

(** C1, refuted as stated: when the command cannot be started
    ([subprocess.run] raises OSError, as for a missing binary) both [ping]
    and [traceroute] raise to their caller; and a traceroute that exits
    non-zero still reports the hops found in its output. *)
Lemma spawn_error_reaches_caller :
  ping (unix_world (Raise OSError) "t0") (py "8.8.8.8") 4 2 = Raise OSError /\
  traceroute (unix_world (Raise OSError) "t0") (py "8.8.8.8") 30
    = Raise OSError /\
  traceroute (unix_world (exited 1 partial_trace) "t0") (py "8.8.8.8") 30
    = Ret [{| TraceHop.hop := 1; TraceHop.host := py "10.0.0.1";
              TraceHop.rtt_ms := Some (round_Z 1) |}].
Proof. repeat split; vm_compute; reflexivity. Qed.

(** C1, amended.  A non-zero exit of ping and a ping or traceroute that
    outlives its ceiling give the full-loss result and the empty hop list; the
    exit status of traceroute is not looked at, its hops are those parsed from
    its output (none from an empty output); any other exception of
    [subprocess.run], such as the OSError of a command that cannot be started,
    is raised to the caller. *)
Theorem execution_failure_outcomes (w : World) (host : str)
    (count timeout max_hops : Z) :
  (forall proc,
     subprocess_run w (ping_cmd w host count timeout) (Some 30) = Ret proc ->
     returncode proc <> 0 ->
     ping w host count timeout = Ret (full_loss w host count)) /\
  (forall e,
     subprocess_run w (ping_cmd w host count timeout) (Some 30) = Raise e ->
     ping w host count timeout =
       if is_TimeoutExpired e then Ret (full_loss w host count)
       else Raise e) /\
  (forall proc,
     subprocess_run w (traceroute_cmd w host max_hops) (Some 60) = Ret proc ->
     traceroute w host max_hops = Ret (traceroute_parser w (stdout proc))) /\
  (forall e,
     subprocess_run w (traceroute_cmd w host max_hops) (Some 60) = Raise e ->
     traceroute w host max_hops =
       if is_TimeoutExpired e then Ret [] else Raise e) /\
  traceroute_parser w [] = [].
Proof.
  unfold ping, traceroute, traceroute_parser.
  split; [|split; [|split; [|split]]].
  - intros proc Hrun Hrc. rewrite Hrun. simpl.
    destruct (returncode proc =? 0) eqn:E; [|reflexivity].
    apply Z.eqb_eq in E. contradiction.
  - intros e Hrun. rewrite Hrun. reflexivity.
  - intros proc Hrun. rewrite Hrun. simpl.
    destruct (system_is_windows w); reflexivity.
  - intros e Hrun. rewrite Hrun. reflexivity.
  - destruct (system_is_windows w); reflexivity.
Qed.

Lemma execution_failure_outcomes_witness :
  ping (unix_world (exited 2 "") "t0") (py "8.8.8.8") 4 2
    = Ret (full_loss (unix_world (exited 2 "") "t0") (py "8.8.8.8") 4) /\
  ping (unix_world (Raise OSError) "t0") (py "8.8.8.8") 4 2 = Raise OSError /\
  traceroute (windows_world (Raise TimeoutExpired) "t0") (py "8.8.8.8") 30
    = Ret [].
Proof.
  split; [|split].
  - apply (proj1 (execution_failure_outcomes
                    (unix_world (exited 2 "") "t0") (py "8.8.8.8") 4 2 30)
             {| returncode := 2; stdout := [] |}); [reflexivity | simpl; lia].
  - apply (proj1 (proj2 (execution_failure_outcomes
                    (unix_world (Raise OSError) "t0") (py "8.8.8.8") 4 2 30))
             OSError). reflexivity.
  - apply (proj1 (proj2 (proj2 (proj2 (execution_failure_outcomes
                    (windows_world (Raise TimeoutExpired) "t0")
                    (py "8.8.8.8") 4 2 30))))
             TimeoutExpired). reflexivity.
Defined.

(** ** Failure paths of [ping] (C2) *)

(** C2.  Whenever the ping child exits non-zero, or outlives the 30 second
    ceiling, or parsing its output raises, [ping host count] returns a result
    with [packet_loss] 100.0, [packets_received] 0, the three round-trip
    fields 0.0 and [packets_transmitted = count]. *)
Theorem ping_failure_is_full_loss (w : World) (host : str) (count timeout : Z)
    (H : PingFailure w host count timeout) :
  exists r,
    ping w host count timeout = Ret r /\
    PingResult.packet_loss r = round_Z 100 /\
    PingResult.packets_received r = 0 /\
    PingResult.min_ms r = S754_zero false /\
    PingResult.avg_ms r = S754_zero false /\
    PingResult.max_ms r = S754_zero false /\
    PingResult.packets_transmitted r = count.
Proof.
  exists (full_loss w host count).
  split; [|repeat split].
  unfold ping.
  destruct H as [proc Hrun Hrc | Hrun | proc e Hrun Hrc Hparse];
    rewrite Hrun; simpl.
  - destruct (returncode proc =? 0) eqn:E; [|reflexivity].
    apply Z.eqb_eq in E. contradiction.
  - reflexivity.
  - rewrite Hrc. simpl.
    destruct (system_is_windows w).
    + now rewrite (parse_raised_windows _ _ _ _ Hparse).
    + now rewrite (parse_raised_linux _ _ _ _ Hparse).
Qed.

(** The three failure paths at work: exit status 1, the ceiling, and Spanish
    statistics (whose first group is empty, so [float] raises). *)
Lemma ping_failure_is_full_loss_witness :
  (exists r, ping (unix_world (exited 1 "") "t0") (py "8.8.8.8") 4 2 = Ret r /\
     PingResult.packet_loss r = round_Z 100 /\
     PingResult.packets_received r = 0 /\
     PingResult.min_ms r = S754_zero false /\
     PingResult.avg_ms r = S754_zero false /\
     PingResult.max_ms r = S754_zero false /\
     PingResult.packets_transmitted r = 4) /\
  (exists r, ping (windows_world (Raise TimeoutExpired) "t0") (py "8.8.8.8")
               4 2 = Ret r /\
     PingResult.packet_loss r = round_Z 100 /\
     PingResult.packets_received r = 0 /\
     PingResult.min_ms r = S754_zero false /\
     PingResult.avg_ms r = S754_zero false /\
     PingResult.max_ms r = S754_zero false /\
     PingResult.packets_transmitted r = 4) /\
  (exists r, ping (unix_world (exited 0 spanish_stats) "t0") (py "8.8.8.8")
               4 2 = Ret r /\
     PingResult.packet_loss r = round_Z 100 /\
     PingResult.packets_received r = 0 /\
     PingResult.min_ms r = S754_zero false /\
     PingResult.avg_ms r = S754_zero false /\
     PingResult.max_ms r = S754_zero false /\
     PingResult.packets_transmitted r = 4).
Proof.
  split; [|split].
  - apply ping_failure_is_full_loss.
    eapply NonZeroExit; [reflexivity | simpl; lia].
  - apply ping_failure_is_full_loss.
    apply CeilingExceeded. reflexivity.
  - apply ping_failure_is_full_loss.
    eapply ParsingRaised with (e := TypeError);
      [reflexivity | reflexivity | vm_compute; reflexivity].
Defined.

(** ** The host validator (C3) *)

Lemma host_re_sound s m :
  re_match HOST_RE s = Some m -> DomainShapeLF s.
Proof.
  unfold re_match. intro H.
  apply match_here_sound in H. destruct H as (s' & c' & HS & _).
  unfold HOST_RE, Many1 in HS. cbn [Seq AtLeast] in HS. inv_sem.
  exists s'. split.
  - match goal with H : _ \/ _ |- _ => destruct H as [->| ->] end;
      [now left | now right].
  - exists ((a :: l) ++ py "." ++ a1 :: a0 :: l0). split.
    + repeat rewrite <- app_assoc. reflexivity.
    + exists (a :: l), (a1 :: a0 :: l0).
      repeat split; try discriminate; try (repeat constructor; assumption).
      cbn. lia.
Qed.






Lemma is_char_0_digit c :
  is_char "0" c = true -> c = "0"%char.
Proof.
  unfold is_char. destruct (ascii_dec c "0"); [auto | discriminate].
Qed.







Lemma is_valid_host_cases s :
  has_nul s = false ->
  is_valid_host s =
    Ret (match c_inet_aton s with
         | Some _ => true
         | None => match re_match HOST_RE s with
                   | Some _ => true
                   | None => false
                   end
         end).
Proof.
  intro Hn. unfold is_valid_host, inet_aton. rewrite Hn.
  destruct (c_inet_aton s); cbn [bind catch is_OSError]; [reflexivity|].
  destruct (re_match HOST_RE s); reflexivity.
Qed.






(** Two more ways in which the validator departs from the two shapes: a
    domain name followed by a line feed passes, and a string with a NUL
    character raises instead of returning. *)
Lemma validator_oddities :
  is_valid_host (py ("example.com" ++ LF)) = Ret true /\
  is_valid_host [zero] = Raise ValueError.
Proof. split; vm_compute; reflexivity. Qed.



(** ** The Spanish loss line (C4) *)

(** C4, at the failing input: on Spanish statistics the Unix parser reports
    100.0 per cent and no packet received, where the Windows parser, on the
    same text, reports the 50 per cent that the text states. *)
Theorem linux_parser_misses_perdidos :
  (exists r,
     _parse_ping_linux (unix_world (exited 0 spanish_stats) "t0")
       (py spanish_stats) (py "8.8.8.8") 4 = Ret r /\
     PingResult.packet_loss r = round_Z 100 /\
     PingResult.packets_received r = 0) /\
  (exists r,
     _parse_ping_windows (windows_world (exited 0 spanish_stats) "t0")
       (py spanish_stats) (py "8.8.8.8") 4 = Ret r /\
     PingResult.packet_loss r = round_Z 50 /\
     PingResult.packets_received r = 2).
Proof.
  split; eexists; (split; [vm_compute; reflexivity | split; reflexivity]).
Qed.

(** ** The Windows statistics line (C5) *)

Lemma float_of_numeral_ok ds :
  numeral ds -> float_of_str ds = Ret (float_of_numeral ds).
Proof. intros [Hne Hd]. now apply float_of_digits. Qed.







(** ** The loss percentage: what each parser does with the match *)

(** On Windows the loss is the numeral in front of either token. *)
Lemma windows_loss_extracted w output host count r m :
  _parse_ping_windows_try w output host count = Ret r ->
  re_search LOSS_RE output = Some m ->
  exists ds, numeral ds /\
    (group m 1 = Some ds \/ group m 2 = Some ds) /\
    PingResult.packet_loss r = float_of_numeral ds.
Proof.
  intros Htry Em.
  destruct (loss_match_groups _ Em) as (ds & Hne & Hd & Hg).
  assert (Hn : numeral ds) by (split; assumption).
  exists ds. split; [assumption|]. split; [tauto|].
  revert Htry. unfold _parse_ping_windows_try.
  destruct (match re_search PING_RE_WINDOWS output with
            | Some m0 => _ | None => _ end) as [[[mn av] mx]|e];
    cbn [bind]; [|discriminate].
  rewrite Em.
  assert (Hf : float_of_group (py_or (group m 1) (group m 2))
               = Ret (float_of_numeral ds)).
  { destruct ds as [|d ds]; [now destruct Hne|].
    destruct Hg as [[-> ->]|[-> ->]]; cbn [py_or float_of_group];
      now apply float_of_numeral_ok. }
  rewrite Hf. cbn [bind].
  destruct (received_of count (float_of_numeral ds)); cbn [bind];
    [|discriminate].
  intro H. now injection H as <-.
Qed.

(** On Unix a match of the Spanish form always ends in the full-loss
    result: only the first group is read, and it is empty. *)
Lemma linux_perdidos_full_loss w output host count m :
  re_search LOSS_RE output = Some m -> group m 1 = None ->
  _parse_ping_linux w output host count = Ret (full_loss w host count).
Proof.
  intros Em Hg. unfold _parse_ping_linux.
  assert (H : exists e, _parse_ping_linux_try w output host count = Raise e).
  { unfold _parse_ping_linux_try.
    destruct (match re_search PING_RE_LINUX output with
              | Some m0 => _ | None => _ end) as [[[mn av] mx]|e];
      cbn [bind]; [|eauto].
    rewrite Em, Hg. cbn. eauto. }
  destruct H as (e & ->). reflexivity.
Qed.

(** ** Packets received against packets transmitted (C6) *)




(** ** Doubles against integers in the service's range *)




Lemma digits_value_nonneg ds :
  Forall (fun a => isdigit a = true) ds -> 0 <= digits_value ds.
Proof.
  intro H. unfold digits_value.
  assert (G : forall acc, 0 <= acc ->
            0 <= fold_left (fun acc d => 10 * acc + digit_val d) ds acc).
  { induction H as [|d l Hd _ IH]; intros acc Ha; cbn [fold_left];
      [assumption|].
    apply IH. pose proof (isdigit_val _ Hd). lia. }
  apply G. lia.
Qed.


(** ** The Unix traceroute parser, line by line (C7) *)

Lemma linux_line_hops hops line :
  linux_line hops line = hops ++ hops_of (unix_hop_of_line line).
Proof.
  unfold linux_line, unix_hop_of_line.
  destruct (strip line) as [|c t] eqn:Es.
  - rewrite (@split_aux_blank line (@strip_nil line Es) : split line = []).
    cbn. now rewrite app_nil_r.
  - destruct (split line) as [|p0 [|p1 more]]; cbn [List.length Nat.ltb Nat.leb];
      try (cbn; now rewrite app_nil_r).
    cbn [index nth_error bind].
    destruct (int_of_str p0) as [hop_no|e] eqn:Ei; cbn [bind].
    + destruct (str_eqb p1 (py "*")); [reflexivity|].
      destruct more as [|p2 more]; cbn [List.length Nat.ltb Nat.leb].
      * reflexivity.
      * cbn [index nth_error bind].
        destruct (float_of_str p2) as [x|e] eqn:Ef; cbn [bind]; [reflexivity|].
        rewrite (@float_of_str_raises _ _ Ef). cbn. now rewrite app_nil_r.
    + rewrite (@int_of_str_raises _ _ Ei). cbn. now rewrite app_nil_r.
Qed.

Lemma fold_linux_line lines : forall hops,
  fold_left linux_line lines hops
  = hops ++ flat_map (fun line => hops_of (unix_hop_of_line line)) lines.
Proof.
  induction lines as [|line lines IH]; intro hops; cbn [fold_left flat_map].
  - now rewrite app_nil_r.
  - rewrite IH, linux_line_hops. now rewrite app_assoc.
Qed.

Lemma parse_linux_flat_map output :
  _parse_traceroute_linux output
  = flat_map (fun line => hops_of (unix_hop_of_line line))
      (data_lines output).
Proof.
  unfold _parse_traceroute_linux, data_lines.
  cbv zeta. now rewrite fold_linux_line.
Qed.

(** C7.  The Unix traceroute parser skips the first line and reads each
    further line as the grammar [unix_hop_of_line] says: blank and malformed
    lines give nothing, a second token [*] gives the sentinel host with no
    round-trip time, otherwise the second token is the host and the third
    token, when present, the round-trip time.  In particular the data line
    [3 * ] gives hop 3 of host "timeout" without a time, the data line
    [5 192.0.2.1 23.4 ms] gives hop 5 of host 192.0.2.1 with the double
    nearest to 23.4, and a first line that looks like a hop is skipped. *)
Theorem unix_traceroute_grammar :
  (forall output,
     _parse_traceroute_linux output
     = flat_map (fun line => hops_of (unix_hop_of_line line))
         (data_lines output)) /\
  unix_hop_of_line (py "3 * ")
    = Some {| TraceHop.hop := 3; TraceHop.host := py "timeout";
              TraceHop.rtt_ms := None |} /\
  unix_hop_of_line (py "5 192.0.2.1 23.4 ms")
    = Some {| TraceHop.hop := 5; TraceHop.host := py "192.0.2.1";
              TraceHop.rtt_ms := Some rtt_23_4 |} /\
  Z.abs (10 * 6586514455029350 - 234 * 2 ^ 48) <= 5 /\
  _parse_traceroute_linux
    (py (unix_header ++ LF ++ "3 * " ++ LF ++ "5 192.0.2.1 23.4 ms"))
    = [{| TraceHop.hop := 3; TraceHop.host := py "timeout";
          TraceHop.rtt_ms := None |};
       {| TraceHop.hop := 5; TraceHop.host := py "192.0.2.1";
          TraceHop.rtt_ms := Some rtt_23_4 |}] /\
  _parse_traceroute_linux (py "5 192.0.2.1 23.4 ms") = [].
Proof.
  split.
  - exact parse_linux_flat_map.
  - repeat split; try (vm_compute; reflexivity). vm_compute. discriminate.
Qed.

Lemma parse_linux_In output h :
  In h (_parse_traceroute_linux output) ->
  exists line, In line (data_lines output) /\
               unix_hop_of_line line = Some h.
Proof.
  rewrite parse_linux_flat_map. intro H.
  apply in_flat_map in H. destruct H as (line & Hl & Hh).
  exists line. split; [assumption|].
  destruct (unix_hop_of_line line); cbn in Hh; [|contradiction].
  destruct Hh as [->|[]]. reflexivity.
Qed.

(** ** Hop numbers (C8) and the sentinel host (C10) *)

Lemma consumed_head a (t s' : str) :
  (List.length s' <= List.length t)%nat ->
  consumed (a :: t) s' = a :: consumed t s'.
Proof.
  intro H. unfold consumed. cbn [List.length].
  replace (S (List.length t) - List.length s')%nat
    with (S (List.length t - List.length s')) by lia.
  reflexivity.
Qed.

(** What [ip_pattern] finds begins with a digit. *)
Lemma ip_match_text line m :
  re_search ip_pattern line = Some m ->
  exists a t, m_text m = a :: t /\ isdigit a = true.
Proof.
  unfold re_search. intro H.
  apply search_from_sound in H. destruct H as (pre & suf & _ & H).
  apply match_here_sound in H. destruct H as (s' & c' & HS & ->).
  unfold ip_pattern, Many1 in HS. cbn [Seq] in HS. inv_sem.
  cbn [m_text]. rewrite consumed_head.
  - eauto.
  - repeat (rewrite length_app; cbn [List.length]). lia.
Qed.

Lemma timeout_not_digit a t : isdigit a = true -> a :: t <> py "timeout".
Proof. intros Ha H. injection H as -> _. discriminate Ha. Qed.

(** One turn of the Windows loop leaves the list alone or appends one hop,
    numbered from 1 up, whose host is the sentinel only without a time. *)
Lemma windows_line_cases hops i line :
  windows_line hops i line = hops \/
  exists h, windows_line hops i line = hops ++ [h] /\
            1 <= TraceHop.hop h /\
            (TraceHop.host h = py "timeout" -> TraceHop.rtt_ms h = None).
Proof.
  unfold windows_line.
  destruct (startswith (strip line) (str_of_N (N.of_nat i + 1))) eqn:Es;
    [|now left].
  destruct (@str_of_N_head (N.of_nat i + 1)) as (c & rest & Hc & Hnz);
    [lia|].
  rewrite Hc in Es. apply startswith_head in Es. destruct Es as (t & Es).
  apply strip_head in Es. destruct Es as (u & Es).
  apply split_lstrip in Es. destruct Es as (more & parts & ->).
  cbn [index nth_error bind].
  destruct (int_of_str (c :: more)) as [hop_no|e] eqn:Ei; cbn [bind].
  - pose proof (@int_of_str_positive c more hop_no Hnz Ei) as Hpos.
    destruct (re_search ip_pattern line) as [m|] eqn:Em.
    + destruct (@ip_match_text line m Em) as (a & t' & Ht & Ha).
      destruct (re_findall time_pattern line) as [|t0 ts]; cbn [bind catch].
      * right. eexists. split; [reflexivity|]. cbn. split; [assumption|].
        rewrite Ht. intro H. now apply timeout_not_digit in H.
      * destruct (float_of_str t0) as [x|e] eqn:Ef; cbn [bind catch].
        -- right. eexists. split; [reflexivity|]. cbn. split; [assumption|].
           rewrite Ht. intro H. now apply timeout_not_digit in H.
        -- rewrite (@float_of_str_raises _ _ Ef). now left.
    + cbn [catch]. right. eexists. split; [reflexivity|]. cbn. auto.
  - rewrite (@int_of_str_raises _ _ Ei). now left.
Qed.

Lemma windows_loop_Forall (P : TraceHop.t -> Prop) :
  (forall hops i line,
     windows_line hops i line = hops \/
     exists h, windows_line hops i line = hops ++ [h] /\ P h) ->
  forall lines hops i,
    Forall P hops -> Forall P (windows_loop hops i lines).
Proof.
  intros Hstep lines.
  induction lines as [|line lines IH]; intros hops i Hh; cbn [windows_loop];
    [assumption|].
  apply IH. destruct (Hstep hops i line) as [-> | (h & -> & Hp)];
    [assumption|].
  apply Forall_app. split; [assumption | now constructor].
Qed.

Lemma parse_windows_Forall output :
  Forall (fun h => 1 <= TraceHop.hop h /\
                   (TraceHop.host h = py "timeout" -> TraceHop.rtt_ms h = None))
    (_parse_traceroute_windows output).
Proof.
  unfold _parse_traceroute_windows. cbv zeta.
  apply windows_loop_Forall; [|constructor].
  intros hops i line.
  destruct (windows_line_cases hops i line) as [H | (h & H & H1 & H2)];
    [now left | right; eauto].
Qed.

Lemma unix_hop_number line h :
  unix_hop_of_line line = Some h ->
  exists first rest,
    split line = first :: rest /\ int_of_str first = Ret (TraceHop.hop h).
Proof.
  unfold unix_hop_of_line.
  destruct (split line) as [|first [|second more]]; try discriminate.
  destruct (int_of_str first) as [hop_no|e] eqn:Ei; [|discriminate].
  intro H. exists first, (second :: more). split; [reflexivity|].
  rewrite Ei.
  destruct (str_eqb second (py "*")); [injection H as <-; reflexivity|].
  destruct more as [|third more]; [injection H as <-; reflexivity|].
  destruct (float_of_str third); [injection H as <-; reflexivity|].
  discriminate.
Qed.



(** C8, refuted as stated: the Unix parser numbers a hop 0 when the line
    says so. *)
Lemma unix_hop_zero :
  exists h,
    In h (_parse_traceroute_linux (py (unix_header ++ LF ++ "0 *"))) /\
    ~ 1 <= TraceHop.hop h.
Proof.
  exists (timeout_hop 0). split; [vm_compute; now left | cbn; lia].
Qed.

(** C8, amended.  Every hop of the Windows parser is numbered 1 or more.
    Every hop of the Unix parser carries the integer that the first token of
    its line denotes, whatever its sign. *)
Theorem hop_numbers (output : str) (h : TraceHop.t) :
  (In h (_parse_traceroute_windows output) -> 1 <= TraceHop.hop h) /\
  (In h (_parse_traceroute_linux output) ->
   exists line first rest,
     In line (data_lines output) /\
     split line = first :: rest /\
     int_of_str first = Ret (TraceHop.hop h)).
Proof.
  split.
  - intro H.
    pose proof (parse_windows_Forall output) as HF.
    rewrite Forall_forall in HF. apply (HF h H).
  - intro H. apply parse_linux_In in H. destruct H as (line & Hl & Hh).
    apply unix_hop_number in Hh. destruct Hh as (first & rest & Hs & Hi).
    exists line, first, rest. auto.
Qed.

Lemma hop_numbers_witness :
  1 <= TraceHop.hop (timeout_hop 2) /\
  exists line first rest,
    In line (data_lines (py (unix_header ++ LF ++ "0 *"))) /\
    split line = first :: rest /\
    int_of_str first = Ret (TraceHop.hop (timeout_hop 0)).
Proof.
  split.
  - apply (proj1 (hop_numbers (py windows_trace) (timeout_hop 2))).
    vm_compute. right. now left.
  - apply (proj2 (hop_numbers (py (unix_header ++ LF ++ "0 *"))
                    (timeout_hop 0))).
    vm_compute. now left.
Defined.




(** ** The parsers and the clock (C9) *)







(** ** Decimal text of integers: [int(str(z)) = z] *)

Lemma digit_char_facts d :
  (d < 10)%N ->
  isdigit (digit_char d) = true /\ digit_val (digit_char d) = Z.of_N d.
Proof.
  intro H.
  assert (Hd : In d [0;1;2;3;4;5;6;7;8;9]%N).
  { destruct d as [|p]; [cbn; auto|].
    do 4 (destruct p as [p|p|]; try lia; cbn; auto 12). }
  cbn in Hd. repeat destruct Hd as [<-|Hd]; try (split; reflexivity).
  contradiction.
Qed.

(** The digits produced for [n] are digits, at least one, and read back as
    [n] after whatever was read before them. *)
Lemma digits_of_value fuel : forall n acc,
  (n < 2 ^ N.of_nat (S fuel))%N ->
  exists ds, digits_of (S fuel) n acc = ds ++ acc /\ ds <> [] /\
    Forall (fun a => isdigit a = true) ds /\
    forall a0, fold_left (fun acc d => 10 * acc + digit_val d) ds a0
               = a0 * 10 ^ Z.of_nat (List.length ds) + Z.of_N n.
Proof.
  induction fuel as [|fuel IH]; intros n acc Hlt;
    cbn [digits_of];
    assert (Hm : (n mod 10 < 10)%N) by (apply N.mod_lt; lia);
    destruct (digit_char_facts Hm) as [Hd Hv];
    destruct (n / 10 =? 0)%N eqn:E.
  1, 3: apply N.eqb_eq in E; apply N.div_small_iff in E; [|lia];
    exists [digit_char (n mod 10)]; repeat split; try discriminate;
    [ repeat constructor; exact Hd
    | intro a0; cbn [fold_left List.length]; rewrite Hv;
      rewrite N.mod_small by assumption; lia ].
  - apply N.eqb_neq in E. exfalso. apply E.
    apply N.div_small. cbn in Hlt. lia.
  - apply N.eqb_neq in E.
    destruct (IH (n / 10)%N (digit_char (n mod 10) :: acc))
      as (ds & Hds & Hne & Hall & Hval).
    { rewrite Nat2N.inj_succ, N.pow_succ_r' in Hlt.
      apply N.Div0.div_lt_upper_bound; lia. }
    exists (ds ++ [digit_char (n mod 10)]). repeat split.
    + change (digits_of (S fuel) (n / 10) (digit_char (n mod 10) :: acc)
              = (ds ++ [digit_char (n mod 10)]) ++ acc).
      rewrite Hds. now rewrite <- app_assoc.
    + destruct ds; discriminate.
    + apply Forall_app. split; [assumption | repeat constructor; exact Hd].
    + intro a0. rewrite fold_left_app. cbn [fold_left].
      rewrite Hval, Hv, length_app. cbn [List.length].
      rewrite Nat2Z.inj_add, Z.pow_add_r by lia.
      rewrite (N.div_mod n 10) at 3 by lia.
      rewrite N2Z.inj_add, N2Z.inj_mul. change (Z.of_N 10) with 10.
      change (10 ^ Z.of_nat 1) with 10. ring.
Qed.

Lemma str_of_N_value n :
  str_of_N n <> [] /\ Forall (fun a => isdigit a = true) (str_of_N n) /\
  digits_value (str_of_N n) = Z.of_N n.
Proof.
  unfold str_of_N.
  destruct (@digits_of_value (N.to_nat (N.log2 n)) n [])
    as (ds & Hds & Hne & Hall & Hval).
  { rewrite Nat2N.inj_succ, N2Nat.id.
    destruct n as [|p]; [reflexivity|]. apply N.log2_spec. lia. }
  rewrite Hds, app_nil_r. repeat split; try assumption.
  unfold digits_value. rewrite Hval. lia.
Qed.


Lemma strip_nonblank a s :
  isspace a = false -> Forall (fun c => isspace c = false) s ->
  strip (a :: s) = a :: s.
Proof.
  intros Ha Hs. unfold strip. cbn [lstrip]. rewrite Ha. unfold rstrip.
  assert (Hr : Forall (fun c => isspace c = false) (rev (a :: s)))
    by (apply Forall_rev; now constructor).
  destruct (rev (a :: s)) as [|b t] eqn:E.
  - apply (f_equal (@rev ascii)) in E. rewrite rev_involutive in E.
    discriminate.
  - inversion Hr as [|? ? Hb _]; subst. cbn [lstrip]. rewrite Hb.
    rewrite <- E. apply rev_involutive.
Qed.


(** ** The command lines *)





(** ** What the drivers raise and what they echo *)



Lemma linux_try_echo w output host count r :
  _parse_ping_linux_try w output host count = Ret r ->
  PingResult.host r = host /\
  PingResult.packets_transmitted r = count /\
  PingResult.timestamp r = now_isoformat w.
Proof.
  unfold _parse_ping_linux_try.
  destruct (match re_search PING_RE_LINUX output with
            | Some m => _ | None => _ end) as [[[mn av] mx]|e];
    cbn [bind]; [|discriminate].
  destruct (match re_search LOSS_RE output with
            | Some m => _ | None => _ end) as [loss|e];
    cbn [bind]; [|discriminate].
  destruct (received_of count loss); cbn [bind]; [|discriminate].
  intro H. injection H as <-. auto.
Qed.

Lemma windows_try_echo w output host count r :
  _parse_ping_windows_try w output host count = Ret r ->
  PingResult.host r = host /\
  PingResult.packets_transmitted r = count /\
  PingResult.timestamp r = now_isoformat w.
Proof.
  unfold _parse_ping_windows_try.
  destruct (match re_search PING_RE_WINDOWS output with
            | Some m => _ | None => _ end) as [[[mn av] mx]|e];
    cbn [bind]; [|discriminate].
  destruct (match re_search LOSS_RE output with
            | Some m => _ | None => _ end) as [loss|e];
    cbn [bind]; [|discriminate].
  destruct (received_of count loss); cbn [bind]; [|discriminate].
  intro H. injection H as <-. auto.
Qed.

(** Whatever [ping] returns names the host it was given, counts [count]
    packets transmitted (for any [count], also out of range) and is stamped
    with the clock. *)
Theorem ping_result_echo (w : World) (host : str) (count timeout : Z)
    (r : PingResult.t)
    (Hping : ping w host count timeout = Ret r) :
  PingResult.host r = host /\
  PingResult.packets_transmitted r = count /\
  PingResult.timestamp r = now_isoformat w.
Proof.
  destruct (ping_result_cases _ _ _ _ Hping) as [-> | (output & Htry)].
  - cbn. auto.
  - destruct (system_is_windows w);
      [now apply windows_try_echo in Htry | now apply linux_try_echo in Htry].
Qed.

Lemma ping_result_echo_witness :
  exists r,
    ping (unix_world
            (exited 0 "4 packets transmitted, 3 received, 25% packet loss")
            "t0") (py "8.8.8.8") 4 2 = Ret r /\
    PingResult.host r = py "8.8.8.8" /\
    PingResult.packets_transmitted r = 4 /\
    PingResult.timestamp r = py "t0".
Proof.
  eexists. split; [vm_compute; reflexivity|].
  apply (@ping_result_echo
           (unix_world
              (exited 0 "4 packets transmitted, 3 received, 25% packet loss")
              "t0") (py "8.8.8.8") 4 2).
  vm_compute. reflexivity.
Defined.

(** ** The Unix statistics line *)

Lemma decimal_text_cons g : decimal_text g ->
  exists a l, g = a :: l /\ digit_or_dot a = true /\
              Forall (fun a => digit_or_dot a = true) l.
Proof.
  intros [Hne Hd]. destruct g as [|a l]; [contradiction|].
  inversion Hd; subst. eauto.
Qed.

Lemma unix_stats_line_matches n0 mid a b c post :
  Forall (fun x => any_but_newline x = true) mid ->
  decimal_text a -> decimal_text b -> decimal_text c ->
  match_here PING_RE_LINUX n0 (unix_stats_line mid a b c ++ post) <> None.
Proof.
  intros Hmid Ha Hb Hc.
  destruct (decimal_text_cons Ha) as (a0 & la & -> & Ha0 & Hla).
  destruct (decimal_text_cons Hb) as (b0 & lb & -> & Hb0 & Hlb).
  destruct (decimal_text_cons Hc) as (c0 & lc & -> & Hc0 & Hlc).
  unfold match_here.
  eapply rmatch_complete; [|discriminate].
  unfold PING_RE_LINUX, Many1, unix_stats_line. cbn [Seq].
  repeat rewrite <- app_assoc. cbn [app].
  eapply SemCat; [apply (SemLit n0 (py "min/avg/max"))|].
  eapply SemCat; [apply SemMany; exact Hmid|].
  eapply SemCat; [apply (SemLit n0 (py "= "))|].
  eapply SemCat.
  { apply SemGrp. eapply SemCat; [apply SemCls; exact Ha0|].
    apply SemMany. exact Hla. }
  eapply SemCat; [apply (SemLit n0 (py "/"))|].
  eapply SemCat.
  { apply SemGrp. eapply SemCat; [apply SemCls; exact Hb0|].
    apply SemMany. exact Hlb. }
  eapply SemCat; [apply (SemLit n0 (py "/"))|].
  apply SemGrp. eapply SemCat; [apply SemCls; exact Hc0|].
  apply SemMany. exact Hlc.
Qed.

Lemma linux_match_groups output m :
  re_search PING_RE_LINUX output = Some m ->
  exists pre mid a b c post,
    Forall (fun x => any_but_newline x = true) mid /\
    decimal_text a /\ decimal_text b /\ decimal_text c /\
    output = pre ++ unix_stats_line mid a b c ++ post /\
    group m 1 = Some a /\ group m 2 = Some b /\ group m 3 = Some c.
Proof.
  unfold re_search. intro H.
  apply search_from_sound in H. destruct H as (pre & suf & -> & H).
  apply match_here_sound in H. destruct H as (s' & c' & HS & ->).
  unfold PING_RE_LINUX, Many1 in HS. cbn [Seq] in HS. inv_sem.
  exists pre, l1, (a :: l), (a0 :: l0), (a1 :: l2), s'.
  repeat split; try discriminate; try assumption;
    try (constructor; assumption).
  - unfold unix_stats_line. repeat rewrite <- app_assoc. reflexivity.
  - unfold group. cbn [m_groups]. unfold set_cap. cbn [Nat.eqb].
    now rewrite consumed_cons_app.
  - unfold group. cbn [m_groups]. unfold set_cap. cbn [Nat.eqb].
    now rewrite consumed_cons_app.
  - unfold group. cbn [m_groups]. unfold set_cap. cbn [Nat.eqb].
    now rewrite consumed_cons_app.
Qed.

Lemma float_groups_inv m t :
  float_groups m = Ret t ->
  exists x1 x2 x3, t = (x1, x2, x3) /\
    float_of_group (group m 1) = Ret x1 /\
    float_of_group (group m 2) = Ret x2 /\
    float_of_group (group m 3) = Ret x3.
Proof.
  unfold float_groups.
  destruct (float_of_group (group m 1)) as [x1|]; cbn [bind]; [|discriminate].
  destruct (float_of_group (group m 2)) as [x2|]; cbn [bind]; [|discriminate].
  destruct (float_of_group (group m 3)) as [x3|]; cbn [bind]; [|discriminate].
  intro H. injection H as <-. eauto 7.
Qed.

(** For every Unix ping output that contains a statistics line
    [min/avg/max ... = a/b/c], whenever the [try] block of the parser
    completes, the parser returns the result of that block and its fields come
    from a statistics line of the output: [min_ms] is the first number,
    [avg_ms] the second, [max_ms] the third. *)
Theorem linux_stats_roles (w : World) (output host : str) (count : Z)
    (r : PingResult.t)
    (Hline : HasUnixStatsLine output)
    (Htry : _parse_ping_linux_try w output host count = Ret r) :
  _parse_ping_linux w output host count = Ret r /\
  exists pre mid a b c post,
    output = pre ++ unix_stats_line mid a b c ++ post /\
    Forall (fun x => any_but_newline x = true) mid /\
    float_of_str a = Ret (PingResult.min_ms r) /\
    float_of_str b = Ret (PingResult.avg_ms r) /\
    float_of_str c = Ret (PingResult.max_ms r).
Proof.
  split; [unfold _parse_ping_linux; now rewrite Htry|].
  destruct Hline as (pre0 & mid0 & a0 & b0 & c0 & post0 & Hm0 & Ha0 & Hb0
                     & Hc0 & Hout).
  destruct (re_search PING_RE_LINUX output) as [m|] eqn:Em.
  - destruct (linux_match_groups _ Em)
      as (pre & mid & a & b & c & post & Hmid & Ha & Hb & Hc & Ho
          & G1 & G2 & G3).
    exists pre, mid, a, b, c, post.
    split; [assumption|]. split; [assumption|].
    revert Htry. unfold _parse_ping_linux_try. rewrite Em.
    destruct (float_groups m) as [t|e] eqn:Eg; cbn [bind]; [|discriminate].
    destruct (float_groups_inv _ Eg) as (x1 & x2 & x3 & -> & F1 & F2 & F3).
    rewrite G1 in F1. rewrite G2 in F2. rewrite G3 in F3.
    cbn [float_of_group] in F1, F2, F3. cbn [bind].
    destruct (match re_search LOSS_RE output with
              | Some m0 => _ | None => _ end) as [loss|e]; cbn [bind];
      [|discriminate].
    destruct (received_of count loss) as [n|e]; cbn [bind]; [|discriminate].
    intro H. injection H as <-. cbn. auto.
  - exfalso. revert Em. unfold re_search. subst output.
    apply search_from_complete. now apply unix_stats_line_matches.
Qed.

Lemma linux_stats_roles_witness :
  exists r,
    _parse_ping_linux (unix_world (exited 0 "") "t0")
      (py "rtt min/avg/max/mdev = 10.1/20.2/30.3/1.0 ms") (py "8.8.8.8") 4
      = Ret r /\
    exists pre mid a b c post,
      py "rtt min/avg/max/mdev = 10.1/20.2/30.3/1.0 ms"
        = pre ++ unix_stats_line mid a b c ++ post /\
      Forall (fun x => any_but_newline x = true) mid /\
      float_of_str a = Ret (PingResult.min_ms r) /\
      float_of_str b = Ret (PingResult.avg_ms r) /\
      float_of_str c = Ret (PingResult.max_ms r).
Proof.
  eexists.
  apply (@linux_stats_roles (unix_world (exited 0 "") "t0")
           (py "rtt min/avg/max/mdev = 10.1/20.2/30.3/1.0 ms")
           (py "8.8.8.8") 4).
  - exists (py "rtt "), (py "/mdev "), (py "10.1"), (py "20.2"), (py "30.3"),
      (py "/1.0 ms").
    repeat split; try discriminate; repeat constructor.
  - vm_compute. reflexivity.
Defined.

(** ** Output without statistics *)







(** ** Which percentage the parsers report *)













(** ** Tokens *)

Lemma split_aux_tokens s : forall tok,
  Forall (fun a => isspace a = false) tok ->
  Forall token (split_aux s tok).
Proof.
  induction s as [|c s IH]; intros tok Htok; cbn [split_aux].
  - destruct tok as [|a tok]; [constructor|].
    constructor; [|constructor]. split.
    + intro H. apply (f_equal (@rev ascii)) in H.
      rewrite rev_involutive in H. discriminate.
    + now apply Forall_rev.
  - destruct (isspace c) eqn:Ec.
    + destruct tok as [|a tok]; [apply IH; constructor|].
      constructor; [|apply IH; constructor]. split.
      * intro H. apply (f_equal (@rev ascii)) in H.
        rewrite rev_involutive in H. discriminate.
      * now apply Forall_rev.
    + apply IH. now constructor.
Qed.

(** Every element of [s.split()] is a token. *)
Lemma split_tokens s : Forall token (split s).
Proof. apply split_aux_tokens. constructor. Qed.

Lemma strip_token t : token t -> strip t = t.
Proof.
  intros [Hne Hs]. destruct t as [|a t]; [contradiction|].
  inversion Hs; subst. now apply strip_nonblank.
Qed.

Lemma split_aux_run p : forall s tok,
  Forall (fun a => isspace a = false) p ->
  split_aux (p ++ s) tok = split_aux s (rev p ++ tok).
Proof.
  induction p as [|a p IH]; intros s tok Hp; [reflexivity|].
  inversion Hp as [|? ? Ha Hp']; subst.
  cbn [app split_aux rev]. rewrite Ha, IH by assumption.
  now rewrite <- app_assoc.
Qed.

Lemma split_aux_lstrip s : split_aux s [] = split_aux (lstrip s) [].
Proof.
  induction s as [|a s IH]; [reflexivity|].
  cbn [split_aux lstrip]. destruct (isspace a) eqn:Ea; [exact IH|].
  cbn [split_aux]. now rewrite Ea.
Qed.

(** The first token of a line extends any blank-free text that its stripped
    form starts with. *)
Lemma split_prefix s p u :
  lstrip s = p ++ u -> p <> [] -> Forall (fun a => isspace a = false) p ->
  exists more rest, split s = (p ++ more) :: rest.
Proof.
  intros Hl Hne Hp. unfold split.
  rewrite split_aux_lstrip, Hl, split_aux_run by assumption.
  destruct (@split_aux_token u (rev p ++ [])) as (more & rest & H).
  { rewrite app_nil_r. intro H. apply (f_equal (@rev ascii)) in H.
    rewrite rev_involutive in H. contradiction. }
  rewrite H, app_nil_r, rev_involutive. eauto.
Qed.

Lemma startswith_prefix p : forall s,
  startswith s p = true -> exists t, s = p ++ t.
Proof.
  induction p as [|a p IH]; intros s H; [exists s; reflexivity|].
  destruct s as [|b s]; cbn [startswith] in H; [discriminate|].
  destruct (ascii_dec a b); [|discriminate]. subst b.
  destruct (IH s H) as (t & ->). exists t. reflexivity.
Qed.

Lemma lstrip_suffix s : exists sp, s = sp ++ lstrip s.
Proof.
  induction s as [|a s (sp & IH)]; [exists []; reflexivity|].
  cbn [lstrip]. destruct (isspace a).
  - exists (a :: sp). cbn. now f_equal.
  - exists []. reflexivity.
Qed.

Lemma rstrip_prefix s : exists sp, s = rstrip s ++ sp.
Proof.
  unfold rstrip. destruct (lstrip_suffix (rev s)) as (sp & H).
  exists (rev sp). rewrite <- rev_app_distr, <- H. now rewrite rev_involutive.
Qed.

Lemma strip_prefix_lstrip s p t :
  strip s = p ++ t -> exists u, lstrip s = p ++ u.
Proof.
  unfold strip. intro H. destruct (rstrip_prefix (lstrip s)) as (sp & E).
  rewrite H in E. exists (t ++ sp). now rewrite app_assoc.
Qed.

(** ** Numerals that extend a numeral *)

Lemma scan_digits_run p : forall r,
  Forall (fun a => isdigit a = true) p ->
  scan_digits (p ++ r) = (p ++ fst (scan_digits r), snd (scan_digits r)).
Proof.
  induction p as [|a p IH]; intros r Hp; cbn [app].
  - now destruct (scan_digits r).
  - inversion Hp as [|? ? Ha Hp']; subst.
    cbn [scan_digits]. rewrite Ha, IH by assumption. reflexivity.
Qed.

Lemma fold_digits_ge ds : forall acc,
  Forall (fun a => isdigit a = true) ds -> 0 <= acc ->
  acc <= fold_left (fun acc d => 10 * acc + digit_val d) ds acc.
Proof.
  induction ds as [|d ds IH]; intros acc Hd Ha; cbn [fold_left]; [lia|].
  inversion Hd as [|? ? Hd0 Hds]; subst.
  pose proof (isdigit_val _ Hd0).
  specialize (IH (10 * acc + digit_val d) Hds). lia.
Qed.

(** A token that begins with the decimal text of [n] denotes, if it denotes
    an integer at all, one that is at least [n]. *)
Lemma int_of_str_extends n more v :
  token (str_of_N n ++ more) ->
  int_of_str (str_of_N n ++ more) = Ret v -> Z.of_N n <= v.
Proof.
  intros Htok.
  destruct (str_of_N_value n) as (Hne & Hd & Hv).
  unfold int_of_str. rewrite (strip_token Htok).
  destruct (str_of_N n) as [|a p] eqn:E; [contradiction|].
  inversion Hd as [|? ? Ha Hp]; subst.
  destruct (isdigit_not_sign _ Ha) as [H1 H2].
  cbn [app]. unfold read_sign. rewrite H1, H2.
  unfold digitpart. rewrite Ha.
  rewrite (scan_digits_run more Hp).
  pose proof (scan_digits_digits more) as Hds.
  destruct (scan_digits more) as [ds rest]. cbn [fst snd] in *.
  destruct rest; [|discriminate].
  intro H. injection H as <-.
  rewrite <- Hv. unfold digits_value.
  change (a :: p ++ ds) with ((a :: p) ++ ds). rewrite fold_left_app.
  apply fold_digits_ge; [assumption|].
  apply (digits_value_nonneg Hd).
Qed.

(** ** The Windows traceroute parser, hop by hop *)

(** What [ip_pattern] finds is four numerals separated by dots. *)
Lemma ip_match_dotted line m :
  re_search ip_pattern line = Some m -> DottedNumerals (m_text m).
Proof.
  unfold re_search. intro H.
  apply search_from_sound in H. destruct H as (pre & suf & _ & H).
  apply match_here_sound in H. destruct H as (s' & c' & HS & ->).
  unfold ip_pattern, Many1 in HS. cbn [Seq] in HS. inv_sem.
  cbn [m_text].
  exists (a :: l), (a0 :: l0), (a1 :: l1), (a2 :: l2).
  repeat split; try discriminate; try (constructor; assumption).
  match goal with
  | |- consumed ?s s' = ?t => replace s with (t ++ s')
  end.
  - apply consumed_app.
  - repeat rewrite <- app_assoc. reflexivity.
Qed.

(** The first element of [findall] is the group of the first match. *)
Lemma findall_head r s t0 ts :
  re_findall r s = t0 :: ts ->
  exists m, re_search r s = Some m /\ t0 = group_text m.
Proof.
  unfold re_findall, re_search. cbn [findall_from].
  destruct (search_from r (List.length s) s) as [m|]; [|discriminate].
  intro H. injection H as <- _. eauto.
Qed.

(** What [time_pattern] captures is a numeral. *)
Lemma time_match_numeral line m :
  re_search time_pattern line = Some m -> numeral (group_text m).
Proof.
  unfold re_search. intro H.
  apply search_from_sound in H. destruct H as (pre & suf & _ & H).
  apply match_here_sound in H. destruct H as (s' & c' & HS & ->).
  unfold time_pattern, Many1 in HS. cbn [Seq] in HS. inv_sem.
  unfold group_text, group. cbn [m_groups]. unfold set_cap. cbn [Nat.eqb].
  rewrite consumed_cons_app.
  split; [discriminate | now constructor].
Qed.

(** One turn of the Windows loop at line [i] leaves the list alone or
    appends one hop: numbered [i + 1] or more; of the sentinel host without
    a time, or of a host of four dotted numerals; timed, if at all, by the
    double nearest to a numeral. *)
Lemma windows_line_shape hops i line :
  windows_line hops i line = hops \/
  exists h, windows_line hops i line = hops ++ [h] /\
    Z.of_nat i + 1 <= TraceHop.hop h /\
    ((TraceHop.host h = py "timeout" /\ TraceHop.rtt_ms h = None) \/
     DottedNumerals (TraceHop.host h)) /\
    (TraceHop.rtt_ms h = None \/
     exists ds, numeral ds /\ TraceHop.rtt_ms h = Some (float_of_numeral ds)).
Proof.
  unfold windows_line.
  destruct (startswith (strip line) (str_of_N (N.of_nat i + 1))) eqn:Es;
    [|now left].
  destruct (str_of_N_value (N.of_nat i + 1)) as (Hne & Hd & _).
  apply startswith_prefix in Es. destruct Es as (t & Es).
  apply strip_prefix_lstrip in Es. destruct Es as (u & Es).
  apply split_prefix in Es; [|assumption|].
  2:{ eapply Forall_impl; [|exact Hd]. intros c Hc.
      now apply isdigit_not_space. }
  destruct Es as (more & parts & Esplit).
  pose proof (split_tokens line) as Htoks. rewrite Esplit in Htoks.
  inversion Htoks as [|? ? Htok _]; subst.
  rewrite Esplit. cbn [index nth_error bind].
  destruct (int_of_str (str_of_N (N.of_nat i + 1) ++ more))
    as [hop_no|e] eqn:Ei; cbn [bind].
  - pose proof (@int_of_str_extends _ _ _ Htok Ei) as Hfloor.
    assert (Hhop : Z.of_nat i + 1 <= hop_no) by lia.
    destruct (re_search ip_pattern line) as [m|] eqn:Em.
    + pose proof (@ip_match_dotted line m Em) as Hip.
      destruct (re_findall time_pattern line) as [|t0 ts] eqn:Ef;
        cbn [bind catch].
      * right. eexists. split; [reflexivity|]. cbn. auto.
      * destruct (findall_head _ _ Ef) as (mt & Emt & ->).
        pose proof (@time_match_numeral line mt Emt) as Hnum.
        rewrite (float_of_numeral_ok Hnum). cbn [bind catch].
        right. eexists. split; [reflexivity|]. cbn.
        split; [assumption|]. split; [now right|].
        right. eexists. split; [exact Hnum | reflexivity].
    + cbn [catch]. right. eexists. split; [reflexivity|]. cbn. auto.
  - rewrite (@int_of_str_raises _ _ Ei). now left.
Qed.

(** The loop keeps: no more hops than lines read, and the hop at position
    [k] numbered [k + 1] or more. *)
Lemma windows_loop_numbered lines : forall hops i,
  (List.length hops <= i)%nat ->
  (forall k h, nth_error hops k = Some h ->
               Z.of_nat k + 1 <= TraceHop.hop h) ->
  (List.length (windows_loop hops i lines) <= i + List.length lines)%nat /\
  (forall k h, nth_error (windows_loop hops i lines) k = Some h ->
               Z.of_nat k + 1 <= TraceHop.hop h).
Proof.
  induction lines as [|line lines IH]; intros hops i Hlen Hnum;
    cbn [windows_loop List.length].
  - split; [lia | assumption].
  - destruct (IH (windows_line hops i line) (S i)) as [H1 H2].
    + destruct (windows_line_shape hops i line) as [-> | (h & -> & _)];
        [lia|]. rewrite length_app. cbn. lia.
    + destruct (windows_line_shape hops i line)
        as [-> | (h & -> & Hh & _)]; [assumption|].
      intros k h' Hk.
      destruct (Nat.lt_ge_cases k (List.length hops)) as [Hlt|Hge].
      * rewrite nth_error_app1 in Hk by assumption. eauto.
      * rewrite nth_error_app2 in Hk by assumption.
        destruct (k - List.length hops)%nat as [|j] eqn:Ej; cbn in Hk.
        -- injection Hk as <-. lia.
        -- destruct j; discriminate.
    + split; [lia | assumption].
Qed.

(** The Windows traceroute parser gives at most one hop per line of the
    output, and the hop at position [k] of its result (counting from 0) is
    numbered [k + 1] or more. *)
Theorem windows_hops_numbered (output : str) :
  (List.length (_parse_traceroute_windows output)
   <= List.length (splitlines output))%nat /\
  (forall k h,
     nth_error (_parse_traceroute_windows output) k = Some h ->
     Z.of_nat k + 1 <= TraceHop.hop h).
Proof.
  unfold _parse_traceroute_windows. cbv zeta.
  destruct (@windows_loop_numbered (splitlines output) [] 0%nat) as [H1 H2].
  - cbn. lia.
  - intros [|k] h H; discriminate.
  - split; [exact H1 | exact H2].
Qed.




(** ** The Unix traceroute parser, hop by hop *)

Lemma str_eqb_false a b : str_eqb a b = false -> a <> b.
Proof.
  unfold str_eqb. destruct (list_eq_dec ascii_dec a b); [discriminate|auto].
Qed.

Lemma unix_hop_host line h :
  unix_hop_of_line line = Some h ->
  token (TraceHop.host h) /\ TraceHop.host h <> py "*" /\
  (TraceHop.host h = py "timeout" \/
   nth_error (split line) 1 = Some (TraceHop.host h)).
Proof.
  unfold unix_hop_of_line.
  pose proof (split_tokens line) as Htoks.
  destruct (split line) as [|first [|second more]]; try discriminate.
  inversion Htoks as [|? ? _ Htoks']; subst.
  inversion Htoks' as [|? ? Hsecond _]; subst.
  destruct (int_of_str first) as [hop_no|e]; [|discriminate].
  destruct (str_eqb second (py "*")) eqn:Estar.
  - intro H. injection H as <-. cbn.
    split; [split; [discriminate | repeat constructor]|].
    split; [discriminate | now left].
  - apply str_eqb_false in Estar.
    destruct more as [|third more].
    + intro H. injection H as <-. cbn. auto.
    + destruct (float_of_str third); [|discriminate].
      intro H. injection H as <-. cbn. auto.
Qed.

(** The host of every hop of the Unix traceroute parser is a token, not
    empty and free of blanks, and never the asterisk: it is the sentinel
    "timeout" or the second token of a line after the header. *)
Theorem unix_hop_hosts (output : str) (h : TraceHop.t)
    (Hin : In h (_parse_traceroute_linux output)) :
  token (TraceHop.host h) /\
  TraceHop.host h <> py "*" /\
  exists line,
    In line (data_lines output) /\
    (TraceHop.host h = py "timeout" \/
     nth_error (split line) 1 = Some (TraceHop.host h)).
Proof.
  apply parse_linux_In in Hin. destruct Hin as (line & Hl & Hh).
  destruct (unix_hop_host _ Hh) as (Ht & Hs & Hc).
  split; [exact Ht|]. split; [exact Hs|]. exists line. auto.
Qed.

Lemma unix_hop_hosts_witness :
  token (TraceHop.host (timeout_hop 3)).
Proof.
  apply (@unix_hop_hosts (py (unix_header ++ LF ++ "3 * ")) (timeout_hop 3)).
  vm_compute. now left.
Defined.

(** The Unix traceroute parser gives at most one hop for each line after the
    first; an output of at most one line gives no hop. *)
Theorem unix_hops_one_per_line (output : str) :
  (List.length (_parse_traceroute_linux output)
   <= List.length (splitlines output) - 1)%nat.
Proof.
  assert (H : forall lines,
    (List.length (flat_map (fun line => hops_of (unix_hop_of_line line)) lines)
     <= List.length lines)%nat).
  { induction lines as [|line lines IH]; cbn [flat_map List.length]; [lia|].
    rewrite length_app.
    destruct (unix_hop_of_line line); cbn [hops_of List.length]; lia. }
  rewrite parse_linux_flat_map. unfold data_lines.
  destruct (splitlines output) as [|header lines]; cbn [tl List.length].
  - cbn. lia.
  - specialize (H lines). lia.
Qed.

(** ** The alphabet of accepted hosts *)

Lemma span_split (p : ascii -> bool) s : forall l r,
  span p s = (l, r) -> s = l ++ r /\ Forall (fun a => p a = true) l.
Proof.
  induction s as [|a s IH]; intros l r H; cbn [span] in H.
  - injection H as <- <-. auto.
  - destruct (p a) eqn:Ea.
    + destruct (span p s) as [l' r']. injection H as <- <-.
      destruct (IH l' r' eq_refl) as [-> Hl]. auto.
    + injection H as <- <-. auto.
Qed.

Lemma addr_char_of_class a :
  (ishex a = true \/ isoctal a = true \/ isdigit a = true \/
   is_char "x" (lower a) = true \/ is_char "." a = true) ->
  addr_char a = true.
Proof. each_char a; intuition discriminate. Qed.

Lemma addr_char_host_char a : addr_char a = true -> host_char a = true.
Proof. each_char a. Qed.

Lemma isalpha_host_char a : isalpha_ascii a = true -> host_char a = true.
Proof. unfold host_char. now intros ->. Qed.

(** [strtoul] consumes address characters only. *)
Lemma strtoul0_chars s val rest :
  strtoul0 s = (val, rest) ->
  exists ds, s = ds ++ rest /\ Forall (fun a => addr_char a = true) ds.
Proof.
  assert (Hspan : forall (p : ascii -> bool) t l r,
    (forall a, p a = true -> addr_char a = true) ->
    span p t = (l, r) ->
    t = l ++ r /\ Forall (fun a => addr_char a = true) l).
  { intros p t l r Hp H. apply span_split in H. destruct H as [-> Hl].
    split; [reflexivity|]. eapply Forall_impl; [|exact Hl]. exact Hp. }
  unfold strtoul0. destruct s as [|z r]; [intro H; injection H as _ <-;
                                          exists []; auto|].
  destruct (is_char "0" z) eqn:Ez.
  - assert (Hoct : forall v,
      (let (ds, rest0) := span isoctal (z :: r) in (base_value 8 ds, rest0))
      = (v, rest) ->
      exists ds, z :: r = ds ++ rest /\
                 Forall (fun a => addr_char a = true) ds).
    { intros v. destruct (span isoctal (z :: r)) as [ds rest0] eqn:E.
      intro H. injection H as _ <-. exists ds.
      eapply Hspan; [|exact E]. intros a Ha. apply addr_char_of_class. auto. }
    destruct r as [|x [|h t]]; try (apply Hoct).
    destruct (is_char "x" (lower x) && ishex h) eqn:Ex; [|apply Hoct].
    apply andb_prop in Ex. destruct Ex as [Ex Eh].
    cbn [tl]. destruct (span ishex (h :: t)) as [ds rest0] eqn:E.
    intro H. injection H as _ <-.
    destruct (@Hspan ishex (h :: t) ds rest0) as [Hs Hd];
      [intros a Ha; apply addr_char_of_class; auto | exact E |].
    exists (z :: x :: ds). split; [cbn; now rewrite Hs|].
    constructor; [apply addr_char_of_class; left|].
    + apply is_char_0_digit in Ez. now subst z.
    + constructor; [apply addr_char_of_class; auto | exact Hd].
  - destruct (span isdigit (z :: r)) as [ds rest0] eqn:E.
    intro H. injection H as _ <-. exists ds.
    eapply Hspan; [|exact E]. intros a Ha. apply addr_char_of_class. auto.
Qed.

(** What [inet_aton] accepts is a run of address characters, followed by
    nothing or by a blank and anything. *)
Lemma aton_parts_chars fuel : forall bytes s v,
  aton_parts fuel bytes s = Some v ->
  exists p rest,
    s = p ++ rest /\ p <> [] /\ Forall (fun a => addr_char a = true) p /\
    (rest = [] \/ exists d r, rest = d :: r /\ c_isspace d = true).
Proof.
  induction fuel as [|fuel IH]; intros bytes s v H; cbn [aton_parts] in H;
    [discriminate|].
  destruct s as [|c s0]; [discriminate|].
  destruct (isdigit c) eqn:Ec; [|discriminate].
  destruct (strtoul0 (c :: s0)) as [val rest] eqn:Es.
  destruct (strtoul0_chars _ Es) as (ds & Hs & Hd).
  assert (Hne : ds <> [] \/ rest = c :: s0).
  { destruct ds; [right; now rewrite Hs | left; discriminate]. }
  destruct (4294967295 <? val); [discriminate|].
  destruct rest as [|d rest'].
  - exists ds, []. rewrite Hs. repeat split; auto.
    destruct Hne as [Hne|Hne]; [assumption | discriminate].
  - destruct (is_char "." d) eqn:Edot.
    + destruct (_ || _); [discriminate|].
      apply IH in H. destruct H as (p & rest & -> & Hp & Hall & Hrest).
      exists (ds ++ d :: p), rest. repeat split.
      * rewrite Hs. now rewrite <- app_assoc.
      * destruct ds; discriminate.
      * apply Forall_app. split; [assumption|].
        constructor; [apply addr_char_of_class; auto 6 | assumption].
      * assumption.
    + destruct (c_isspace d) eqn:Esp; [|discriminate].
      exists ds, (d :: rest'). rewrite Hs. repeat split; eauto.
      destruct Hne as [Hne|Hne]; [assumption|].
      injection Hne as -> _. each_char c.
Qed.

(** A host that the validator accepts and that holds no blank consists only
    of letters, digits, dots and hyphens, and is not empty. *)
Theorem valid_host_alphabet (s : str)
    (Hnul : has_nul s = false)
    (Hblank : Forall (fun a => c_isspace a = false) s)
    (Hvalid : is_valid_host s = Ret true) :
  s <> [] /\ Forall (fun a => host_char a = true) s.
Proof.
  rewrite (is_valid_host_cases _ Hnul) in Hvalid.
  destruct (c_inet_aton s) as [addr|] eqn:Ea.
  - clear Hvalid. unfold c_inet_aton in Ea.
    apply aton_parts_chars in Ea.
    destruct Ea as (p & rest & -> & Hp & Hall & Hrest).
    destruct Hrest as [->|(d & r & -> & Hd)].
    + rewrite app_nil_r. split; [assumption|].
      eapply Forall_impl; [|exact Hall]. exact addr_char_host_char.
    + apply Forall_app in Hblank. destruct Hblank as [_ Hb].
      inversion Hb; subst. congruence.
  - destruct (re_match HOST_RE s) as [m|] eqn:Em; [|discriminate].
    apply host_re_sound in Em.
    destruct Em as (tail & Htail & s0 & -> & body & tld & -> & Hne & Hb
                    & Hlen & Ht).
    destruct Htail as [->| ->].
    + rewrite app_nil_r. split; [destruct body; [contradiction|discriminate]|].
      apply Forall_app. split; [assumption|].
      apply Forall_app. split; [repeat constructor|].
      eapply Forall_impl; [|exact Ht]. exact isalpha_host_char.
    + apply Forall_app in Hblank. destruct Hblank as [_ Hlf].
      inversion Hlf; subst. discriminate.
Qed.

Lemma valid_host_alphabet_witness :
  py "example.com" <> [] /\
  Forall (fun a => host_char a = true) (py "example.com").
Proof.
  apply (@valid_host_alphabet (py "example.com")).
  - reflexivity.
  - repeat constructor.
  - vm_compute. reflexivity.
Defined.

(** ** The allow-list *)

Lemma str_eqb_eq a b : str_eqb a b = true <-> a = b.
Proof.
  unfold str_eqb. destruct (list_eq_dec ascii_dec a b); split; auto;
    discriminate.
Qed.

Lemma contains_In l x : contains l x = true <-> In x l.
Proof.
  unfold contains. rewrite existsb_exists. split.
  - intros (y & Hy & E). apply str_eqb_eq in E. now subst.
  - intro H. exists x. split; [assumption | now apply str_eqb_eq].
Qed.

Lemma allowed_hosts_valid host :
  In host ALLOWED_HOSTS -> is_valid_host host = Ret true.
Proof.
  unfold ALLOWED_HOSTS. cbn [In].
  intro H. repeat destruct H as [<-|H]; try (vm_compute; reflexivity).
  contradiction.
Qed.

Lemma validate_host_cases host :
  validate_host host =
    if contains ALLOWED_HOSTS host then Returned tt
    else HTTPException 400 (detail_not_allowed host).
Proof.
  unfold validate_host.
  destruct (contains ALLOWED_HOSTS host) eqn:E; cbn [negb]; [|reflexivity].
  apply contains_In in E. now rewrite (@allowed_hosts_valid host E).
Qed.

(** [validate_host] lets a host through exactly when it is in the
    allow-list: every allowed host also passes the syntactic check, so the
    second rejection never fires.  Any other host is answered 400 with a
    detail that quotes the host, says "no está permitido" and lists the
    allowed hosts in ascending order. *)
Theorem validate_host_allow_list (host : str) :
  (In host ALLOWED_HOSTS -> validate_host host = Returned tt) /\
  (~ In host ALLOWED_HOSTS ->
   validate_host host = HTTPException 400 (detail_not_allowed host)) /\
  detail_not_allowed host =
    py "Host '" ++ host ++ py "' no est" ++ a_acute ++
    py " permitido. Hosts permitidos: ['1.0.0.1', '1.1.1.1', '8.8.4.4', " ++
    py "'8.8.8.8', 'cloudflare.com', 'fastapi.tiangolo.com', 'github.com', " ++
    py "'google.com', 'python.org', 'stackoverflow.com']".
Proof.
  rewrite validate_host_cases. split; [|split].
  - intro H. apply contains_In in H. now rewrite H.
  - intro H. destruct (contains ALLOWED_HOSTS host) eqn:E; [|reflexivity].
    apply contains_In in E. contradiction.
  - unfold detail_not_allowed. do 4 f_equal.
Qed.


(** ** The handlers *)

Lemma ping_of_run w host count timeout :
  match subprocess_run w (ping_cmd w host count timeout) (Some 30) with
  | Ret _ => exists r, ping w host count timeout = Ret r
  | Raise e =>
      ping w host count timeout =
        if is_TimeoutExpired e then Ret (full_loss w host count) else Raise e
  end.
Proof.
  unfold ping.
  destruct (subprocess_run w (ping_cmd w host count timeout) (Some 30))
    as [proc|e]; cbn [bind catch].
  - destruct (negb (returncode proc =? 0)); cbn [catch]; [eauto|].
    destruct (system_is_windows w).
    + destruct (_parse_ping_windows_total w (stdout proc) host count)
        as (r & ->). cbn [catch]. eauto.
    + destruct (_parse_ping_linux_total w (stdout proc) host count)
        as (r & ->). cbn [catch]. eauto.
  - destruct (is_TimeoutExpired e); reflexivity.
Qed.

Lemma ping_answers w host count timeout r :
  0 <= count -> ping w host count timeout = Ret r -> answers count host r.
Proof.
  intros Hc Hping. unfold answers.
  destruct (ping_result_cases _ _ _ _ Hping) as [-> | (output & Htry)].
  - cbn. repeat split; lia.
  - destruct (try_facts _ _ _ _ Htry) as (Ht & Hs & Hr).
    destruct (@received_of_bound _ _ _ Hc Hs Hr) as [Hle _].
    repeat split; [|exact Ht|exact Hle].
    destruct (system_is_windows w);
      [now apply windows_try_echo in Htry | now apply linux_try_echo in Htry].
Qed.

Lemma in_range_true lo hi v : lo <= v <= hi -> query_in_range lo hi v = true.
Proof. unfold query_in_range. lia. Qed.

Lemma in_range_false lo hi v :
  ~ lo <= v <= hi -> query_in_range lo hi v = false.
Proof. unfold query_in_range. lia. Qed.

Lemma validate_allowed host :
  In host ALLOWED_HOSTS -> validate_host host = Returned tt.
Proof.
  intro H. rewrite validate_host_cases.
  apply contains_In in H. now rewrite H.
Qed.


(** GET /ping for an allowed host and a count from 1 to 10.  When the ping
    command runs, whatever it prints and however it exits, the answer is a
    result that names the host, reports [count] packets transmitted and at
    most [count] received.  When it outlives its 30 seconds the answer is the
    full-loss result.  When it cannot be started the answer is 500 with the
    text of the exception after "Error ejecutando ping: ". *)
Theorem do_ping_outcomes (exception_text : exn -> str) (w : World)
    (host : str) (count : Z)
    (Hhost : In host ALLOWED_HOSTS) (Hcount : 1 <= count <= 10) :
  match subprocess_run w (ping_cmd w host count 2) (Some 30) with
  | Ret _ =>
      exists r,
        do_ping exception_text w host count = Returned r /\
        answers count host r
  | Raise e =>
      do_ping exception_text w host count =
        if is_TimeoutExpired e then Returned (full_loss w host count)
        else HTTPException 500
               (py "Error ejecutando ping: " ++ exception_text e)
  end.
Proof.
  unfold do_ping.
  rewrite (@in_range_true 1 10 count Hcount).
  rewrite (@validate_allowed host Hhost). cbn [negb].
  pose proof (ping_of_run w host count 2) as Hp.
  destruct (subprocess_run w (ping_cmd w host count 2) (Some 30)) as [proc|e].
  - destruct Hp as (r & Hr). exists r. rewrite Hr. split; [reflexivity|].
    apply (@ping_answers w host count 2 r); [lia | exact Hr].
  - rewrite Hp. destruct (is_TimeoutExpired e); reflexivity.
Qed.

Lemma do_ping_outcomes_witness :
  exists r,
    do_ping (fun _ => py "boom") (unix_world (exited 0 "") "t0")
      (py "8.8.8.8") 4 = Returned r /\
    answers 4 (py "8.8.8.8") r.
Proof.
  apply (@do_ping_outcomes (fun _ => py "boom") (unix_world (exited 0 "") "t0")
           (py "8.8.8.8") 4).
  - vm_compute. tauto.
  - lia.
Defined.

(** GET /traceroute for an allowed host and a hop limit from 1 to 50.  When
    the command runs, the answer names the host and carries the hops the
    parser of the platform reads from its output, whatever its exit status.
    When it outlives its 60 seconds the answer has no hops.  When it cannot
    be started the answer is 500 with the text of the exception after
    "Error ejecutando traceroute: ". *)
Theorem do_traceroute_outcomes (exception_text : exn -> str) (w : World)
    (host : str) (max_hops : Z)
    (Hhost : In host ALLOWED_HOSTS) (Hhops : 1 <= max_hops <= 50) :
  do_traceroute exception_text w host max_hops =
    match subprocess_run w (traceroute_cmd w host max_hops) (Some 60) with
    | Ret proc =>
        Returned
          {| TracerouteResult.host := host;
             TracerouteResult.hops :=
               if system_is_windows w
               then _parse_traceroute_windows (stdout proc)
               else _parse_traceroute_linux (stdout proc);
             TracerouteResult.timestamp := now_isoformat w |}
    | Raise e =>
        if is_TimeoutExpired e then
          Returned {| TracerouteResult.host := host;
                      TracerouteResult.hops := [];
                      TracerouteResult.timestamp := now_isoformat w |}
        else
          HTTPException 500
            (py "Error ejecutando traceroute: " ++ exception_text e)
    end.
Proof.
  unfold do_traceroute, traceroute.
  rewrite (@in_range_true 1 50 max_hops Hhops).
  rewrite (@validate_allowed host Hhost). cbn [negb].
  destruct (subprocess_run w (traceroute_cmd w host max_hops) (Some 60))
    as [proc|e]; cbn [bind catch].
  - destruct (system_is_windows w); reflexivity.
  - destruct (is_TimeoutExpired e); reflexivity.
Qed.

Lemma do_traceroute_outcomes_witness :
  do_traceroute (fun _ => py "boom") (unix_world (Raise TimeoutExpired) "t0")
    (py "github.com") 30 =
  Returned {| TracerouteResult.host := py "github.com";
              TracerouteResult.hops := [];
              TracerouteResult.timestamp := py "t0" |}.
Proof.
  apply (@do_traceroute_outcomes (fun _ => py "boom")
           (unix_world (Raise TimeoutExpired) "t0") (py "github.com") 30).
  - vm_compute. tauto.
  - lia.
Defined.

(** ** Requests that reach no command *)





(** The guards of POST /ping/bulk come before any host is looked at: a count
    outside 1..10 or an empty list of hosts is answered 422, and more than
    five hosts are answered 400 "Máximo 5 hosts permitidos por solicitud",
    whether the hosts are allowed or not. *)
Theorem bulk_ping_guards (exception_text : exn -> str)
    (task_world : nat -> World) (first_raised : list exn -> exn)
    (w : World) (hosts : list str) (count : Z) :
  (~ 1 <= count <= 10 \/ hosts = [] ->
   bulk_ping exception_text task_world first_raised w hosts count
     = Unprocessable) /\
  (1 <= count <= 10 -> (5 < List.length hosts)%nat ->
   bulk_ping exception_text task_world first_raised w hosts count
     = HTTPException 400 detail_too_many) /\
  detail_too_many =
    py "M" ++ a_acute ++ py "ximo 5 hosts permitidos por solicitud".
Proof.
  unfold bulk_ping. split; [|split; [|reflexivity]].
  - intros [Hc| ->].
    + now rewrite (@in_range_false 1 10 count Hc).
    + destruct (negb (query_in_range 1 10 count)); reflexivity.
  - intros Hc Hlen. rewrite (@in_range_true 1 10 count Hc). cbn [negb].
    destruct hosts as [|h t]; [cbn in Hlen; lia|].
    destruct (Nat.ltb_spec 5 (List.length (h :: t))); [reflexivity|lia].
Qed.

(** ** Bulk requests *)








Lemma returned_all_in_order task_world count hosts : forall i results,
  returned_all (ping_tasks task_world i hosts count) = Some results ->
  List.length results = List.length hosts /\
  forall k host, nth_error hosts k = Some host ->
    exists r, nth_error results k = Some r /\
              ping (task_world (i + k)%nat) host count 2 = Ret r.
Proof.
  induction hosts as [|host rest IH]; intros i results;
    cbn [ping_tasks returned_all].
  - intro H. injection H as <-. split; [reflexivity|].
    intros [|k] h; discriminate.
  - destruct (ping (task_world i) host count 2) as [r|e] eqn:Hr;
      [|discriminate].
    destruct (returned_all (ping_tasks task_world (S i) rest count))
      as [l|] eqn:Hl; [|discriminate].
    intro H. injection H as <-.
    destruct (IH (S i) l Hl) as (Hlen & Hnth).
    split; [cbn [List.length]; congruence|].
    intros [|k] h; cbn [nth_error].
    + intro H. injection H as <-. exists r. rewrite Nat.add_0_r. auto.
    + intro H. destruct (Hnth k h H) as (r' & Hn & Hp).
      exists r'. split; [exact Hn|].
      now replace (i + S k)%nat with (S i + k)%nat by lia.
Qed.

Lemma validate_all_returned hosts u :
  validate_all hosts = Returned u ->
  Forall (fun host => In host ALLOWED_HOSTS) hosts.
Proof.
  induction hosts as [|host rest IH]; cbn [validate_all]; [constructor|].
  rewrite validate_host_cases.
  destruct (contains ALLOWED_HOSTS host) eqn:E; [|discriminate].
  intro H. constructor; [now apply contains_In | exact (IH H)].
Qed.

Lemma bulk_ping_returned exception_text task_world first_raised w hosts
    count body :
  bulk_ping exception_text task_world first_raised w hosts count
    = Returned body ->
  1 <= count <= 10 /\
  returned_all (ping_tasks task_world 0 hosts count)
    = Some (BulkPing.results body) /\
  BulkPing.timestamp body = now_isoformat w.
Proof.
  unfold bulk_ping, gather, query_in_range.
  destruct (Z.leb_spec 1 count) as [Hlo|Hlo]; cbn [andb negb]; [|discriminate].
  destruct (Z.leb_spec count 10) as [Hhi|Hhi]; cbn [negb]; [|discriminate].
  destruct hosts as [|h t]; [discriminate|].
  destruct (5 <? List.length (h :: t))%nat; [discriminate|].
  destruct (validate_all (h :: t)); try discriminate.
  destruct (returned_all (ping_tasks task_world 0 (h :: t) count)) as [l|];
    [|discriminate].
  intro Hb. injection Hb as <-. cbn. split; [lia|auto].
Qed.

(** A bulk request that is answered 200 has one result for each host, in the
    order of the hosts: the result at position [k] is what [ping] returned
    for the host at position [k], names that host and reports [count]
    packets transmitted and at most [count] received. *)
Theorem bulk_ping_in_order (exception_text : exn -> str)
    (task_world : nat -> World) (first_raised : list exn -> exn)
    (w : World) (hosts : list str) (count : Z) (body : BulkPing.t)
    (Hbody : bulk_ping exception_text task_world first_raised w hosts count
               = Returned body) :
  List.length (BulkPing.results body) = List.length hosts /\
  BulkPing.timestamp body = now_isoformat w /\
  forall k host, nth_error hosts k = Some host ->
    exists r,
      nth_error (BulkPing.results body) k = Some r /\
      ping (task_world k) host count 2 = Ret r /\
      answers count host r.
Proof.
  destruct (bulk_ping_returned _ _ _ _ _ _ Hbody) as (Hc & Hall & Hts).
  destruct (returned_all_in_order _ _ _ _ Hall) as (Hlen & Hnth).
  split; [exact Hlen|]. split; [exact Hts|].
  intros k host Hk. destruct (Hnth k host Hk) as (r & Hn & Hp).
  cbn [Nat.add] in Hp. exists r. split; [exact Hn|]. split; [exact Hp|].
  apply (@ping_answers (task_world k) host count 2 r); [lia | exact Hp].
Qed.

Lemma bulk_ping_in_order_witness :
  exists body,
    bulk_ping (fun _ => py "boom")
      (fun i => unix_world (exited (Z.of_nat i) "") "t0") (fun _ => OSError)
      (unix_world (exited 0 "") "t1") [py "8.8.8.8"; py "github.com"] 4
      = Returned body /\
    List.length (BulkPing.results body) = 2%nat.
Proof.
  eexists. split; [vm_compute; reflexivity|].
  refine (proj1 (@bulk_ping_in_order (fun _ => py "boom")
                   (fun i => unix_world (exited (Z.of_nat i) "") "t0")
                   (fun _ => OSError) (unix_world (exited 0 "") "t1")
                   [py "8.8.8.8"; py "github.com"] 4 _ _)).
  vm_compute. reflexivity.
Defined.



(** ** The listing of the allowed hosts *)

Lemma insert_sorted_In x y l : In x (insert_sorted y l) <-> x = y \/ In x l.
Proof.
  induction l as [|z l IH]; cbn [insert_sorted In]; [intuition|].
  destruct (str_ltb z y); cbn [In]; [rewrite IH|]; intuition.
Qed.

Lemma insert_sorted_length x l :
  List.length (insert_sorted x l) = S (List.length l).
Proof.
  induction l as [|z l IH]; cbn [insert_sorted List.length]; [reflexivity|].
  destruct (str_ltb z x); cbn [List.length]; congruence.
Qed.

Lemma sorted_In x s : In x (sorted s) <-> In x s.
Proof.
  unfold sorted. rewrite <- (nodup_In (list_eq_dec ascii_dec) s x).
  induction (nodup (list_eq_dec ascii_dec) s) as [|y l IH];
    cbn [fold_right In]; [tauto|].
  rewrite insert_sorted_In, IH. intuition.
Qed.

Lemma sorted_length s : Z.of_nat (List.length (sorted s)) = len_set s.
Proof.
  unfold sorted, len_set. f_equal.
  induction (nodup (list_eq_dec ascii_dec) s) as [|y l IH];
    cbn [fold_right List.length]; [reflexivity|].
  now rewrite insert_sorted_length, IH.
Qed.

(** GET /allowed-hosts lists exactly the hosts that the other endpoints
    accept: a host is in the listing if and only if [validate_host] lets it
    through.  The listing is in strictly ascending order, so without
    repetition, and [count] is its length. *)
Theorem allowed_hosts_listing (w : World) :
  (forall host,
     In host (AllowedHosts.allowed_hosts (get_allowed_hosts w)) <->
     validate_host host = Returned tt) /\
  ascending (AllowedHosts.allowed_hosts (get_allowed_hosts w)) = true /\
  AllowedHosts.count (get_allowed_hosts w) =
    Z.of_nat (List.length (AllowedHosts.allowed_hosts (get_allowed_hosts w))) /\
  AllowedHosts.timestamp (get_allowed_hosts w) = now_isoformat w.
Proof.
  unfold get_allowed_hosts. cbn [AllowedHosts.allowed_hosts AllowedHosts.count
    AllowedHosts.timestamp].
  split; [|split; [vm_compute; reflexivity|split; [|reflexivity]]].
  - intro host. rewrite sorted_In, validate_host_cases.
    destruct (contains ALLOWED_HOSTS host) eqn:E.
    + apply contains_In in E. tauto.
    + split; [|discriminate]. intro H. apply contains_In in H. congruence.
  - symmetry. apply sorted_length.
Qed.

(** ** No request brings a handler down *)

Lemma answered_400 (A : Type) w detail :
  answered w (@HTTPException A 400 detail).
Proof. cbn. split; [reflexivity|]. left. split; reflexivity. Qed.

Lemma answered_500 (A : Type) w detail :
  answered w (@HTTPException A 500 detail).
Proof. cbn. split; [reflexivity|]. right. split; reflexivity. Qed.

Lemma validate_all_cases hosts :
  validate_all hosts = Returned tt \/
  exists detail, validate_all hosts = HTTPException 400 detail.
Proof.
  induction hosts as [|host rest IH]; cbn [validate_all]; [now left|].
  rewrite validate_host_cases.
  destruct (contains ALLOWED_HOSTS host); [exact IH|eauto].
Qed.

(** Whatever the request and whatever the operating system does, the three
    endpoints that run commands hand back a result, the framework's 422, or
    an HTTPException with status 400 or 500, which the registered handler
    turns into a body with the same detail and the error code "HTTP_400" or
    "HTTP_500".  No exception leaves a handler unhandled: [is_valid_host] can
    raise, but only on hosts that the allow-list has already turned away. *)
Theorem handlers_always_answer (exception_text : exn -> str)
    (task_world : nat -> World) (first_raised : list exn -> exn)
    (w : World) (host : str) (hosts : list str) (n : Z) :
  answered w (do_ping exception_text w host n) /\
  answered w (do_traceroute exception_text w host n) /\
  answered w (bulk_ping exception_text task_world first_raised w hosts n).
Proof.
  split; [|split].
  - unfold do_ping. destruct (negb (query_in_range 1 10 n)); [exact I|].
    rewrite validate_host_cases.
    destruct (contains ALLOWED_HOSTS host); [|apply answered_400].
    destruct (ping w host n 2); [exact I | apply answered_500].
  - unfold do_traceroute. destruct (negb (query_in_range 1 50 n)); [exact I|].
    rewrite validate_host_cases.
    destruct (contains ALLOWED_HOSTS host); [|apply answered_400].
    destruct (traceroute w host n); [exact I | apply answered_500].
  - unfold bulk_ping. destruct (negb (query_in_range 1 10 n)); [exact I|].
    destruct hosts as [|h t]; [exact I|].
    destruct (5 <? List.length (h :: t))%nat; [apply answered_400|].
    destruct (validate_all_cases (h :: t)) as [-> | (detail & ->)];
      [|apply answered_400].
    destruct (gather first_raised (ping_tasks task_world 0 (h :: t) n));
      [exact I | apply answered_500].
Qed.
